(** * gemini_pdf_analyzer: the response parser and the quantity normaliser

    A shallow embedding of [QuantitySurveyorAI._parse_response]
    (src/gemini_pdf_analyzer.py, lines 182-221) and of the Python
    operations it calls: [re.search] on the two patterns of the method,
    [json.loads], the arithmetic of the weight formula on Python's [int]
    and [float], and [round(x, 2)].

    Conventions of the model.
    - A Python [str] is a list of code points.
    - A Python [float] is an IEEE 754 binary64 number, in the Standard
      Library's [spec_float] with [prec = 53] and [emax = 1024]; every
      operation rounds to nearest, ties to even.
    - A Python [dict] is an association list in insertion order, with the
      update rule of [dict.__setitem__].
    - An exception is a value of [exn]; code that can raise returns
      [result].
    - [print] is modelled by whether it raises.  [sys.stdout] is taken to
      be the UTF-8 stream with the strict error handler that Python 3
      opens by default: it writes every text but one that holds a
      surrogate code point, on which it raises [UnicodeEncodeError].  The
      text written is not recorded.  Every [print] of the methods stands
      in the model at its place, with its text; the message of an
      exception is kept by its first words, which are ASCII as the whole
      message is.

    What the model leaves to the platform: the interpreter's recursion
    limit and its limit on the digits of an [int] (both make [json.loads]
    raise on texts the model decodes; the handler catches either), and the
    C library's [pow], taken to return the correctly rounded square and
    to flag overflow only. *)

From Stdlib Require Import String Ascii.
From Stdlib Require Import List ZArith NArith Bool Lia.
From Stdlib Require Import Floats.SpecFloat.
Import ListNotations.

Set Implicit Arguments.

Local Open Scope Z_scope.

(** ** Strings of code points *)

Module Str.

Definition char := N.
Definition str := list char.

(** Text of the examples is written as a Rocq string in which an
    apostrophe stands for the double quote of the Python text. *)
Definition code (a : ascii) : char :=
  let n := N_of_ascii a in
  if N.eqb n 39 then 34%N else n.

Fixpoint lit (s : string) : str :=
  match s with
  | EmptyString => []
  | String a s' => code a :: lit s'
  end.

Arguments lit : simpl never.

(** The code points of an ASCII string, as they are. *)
Fixpoint text (s : string) : str :=
  match s with
  | EmptyString => []
  | String a s' => N_of_ascii a :: text s'
  end.

Definition nl : str := [10%N].

Fixpoint eqb (a b : str) : bool :=
  match a, b with
  | [], [] => true
  | x :: a', y :: b' => N.eqb x y && eqb a' b'
  | _, _ => false
  end.

(** [strip p s] is the rest of [s] after its prefix [p]. *)
Fixpoint strip (p s : str) : option str :=
  match p, s with
  | [], _ => Some s
  | x :: p', y :: s' => if N.eqb x y then strip p' s' else None
  | _ :: _, [] => None
  end.

(** [str.find]: the index of the first occurrence of [p] in [s]. *)
Fixpoint find_from (p s : str) (i : nat) : option nat :=
  match strip p s with
  | Some _ => Some i
  | None =>
      match s with
      | [] => None
      | _ :: s' => find_from p s' (S i)
      end
  end.

Definition find (p s : str) : option nat := find_from p s 0.

Definition mem (c : char) (s : str) : bool := existsb (N.eqb c) s.

End Str.

Import Str.

(** ** Exceptions and results *)

Inductive exn :=
| ValueError (msg : string)
| JSONDecodeError (msg : string)
| KeyError (key : str)
| TypeError (msg : string)
| AttributeError (msg : string)
| OverflowError (msg : string)
| RecursionError
| UnicodeEncodeError (msg : string).

Definition result (A : Type) := (exn + A)%type.

Definition ret {A} (a : A) : result A := inr a.
Definition raise {A} (e : exn) : result A := inl e.

Definition bind {A B} (m : result A) (f : A -> result B) : result B :=
  match m with
  | inl e => inl e
  | inr a => f a
  end.

Notation "x <- m ;; k" := (bind m (fun x => k))
  (at level 61, m at next level, right associativity).
Notation "' p <- m ;; k" := (bind m (fun x => match x with p => k end))
  (at level 61, p pattern, m at next level, right associativity).

Fixpoint mapM {A B} (f : A -> result B) (l : list A) : result (list B) :=
  match l with
  | [] => ret []
  | a :: l' => b <- f a ;; bs <- mapM f l' ;; ret (b :: bs)
  end.

(** ** Python floats: IEEE 754 binary64 *)

Module F64.

Definition prec : Z := 53.
Definition emax : Z := 1024.

Definition float := spec_float.

Definition mul : float -> float -> float := SFmul prec emax.
Definition div : float -> float -> float := SFdiv prec emax.

Definition is_inf (x : float) : bool :=
  match x with
  | S754_infinity _ => true
  | _ => false
  end.

(** The float nearest to the quotient [n / d] of two positive integers
    (ties to even), of sign [s]. *)
Definition of_quotient (s : bool) (n d : positive) : float :=
  let '(q, e, l) := SFdiv_core_binary prec emax (Zpos n) 0 (Zpos d) 0 in
  binary_round_aux prec emax s q e l.

(** The float nearest to the integer [z]; an infinity when [z] is out
    of range. *)
Definition of_Z (z : Z) : float := binary_normalize prec emax z 0 false.

(** The float nearest to [m * 10^e], of sign [s]: what [float(text)]
    and a float literal of the source denote. *)
Definition of_decimal (s : bool) (m : N) (e : Z) : float :=
  match m with
  | N0 => S754_zero s
  | Npos p =>
      match e with
      | Z0 => binary_round prec emax s p 0
      | Zpos k => binary_round prec emax s (p * Pos.pow 10 k) 0
      | Zneg k => of_quotient s p (Pos.pow 10 k)
      end
  end.

(** Nearest integer to [n / d], ties to even. *)
Definition round_half_even (n d : Z) : Z :=
  let q := n / d in
  let r := n mod d in
  match Z.compare (2 * r) d with
  | Lt => q
  | Gt => q + 1
  | Eq => if Z.even q then q else q + 1
  end.

(** [float.__round__(x, 2)] for a finite [x]: the exact value of [x] is
    rounded to two decimal places, ties to even ([_Py_dg_dtoa], mode 3),
    and the decimal result is converted back to the nearest float
    ([_Py_dg_strtod]).  A NaN or an infinity rounds to itself. *)
Definition round2 (x : float) : float :=
  match x with
  | S754_finite s m e =>
      let hundredths :=
        match e with
        | Zneg k => round_half_even (Zpos m * 100) (Zpos (Pos.pow 2 k))
        | _ => Zpos m * 100 * 2 ^ e
        end in
      match hundredths with
      | Zpos h => of_quotient s h 100
      | _ => S754_zero s
      end
  | _ => x
  end.

End F64.

(** ** Regular expressions: the fragment of [re] the method uses

    Python's [re] is a backtracking matcher: alternatives are tried in a
    fixed order and the first way to match wins.  [rmatch] is that matcher
    in continuation-passing style, for literals, a starred character class
    (greedy [c*] or lazy [c*?]), sequencing and capturing groups. *)

Module Re.

Inductive regex :=
| Lit (s : str)
| Star (greedy : bool) (cls : char -> bool)
| Seq (r1 r2 : regex)
| Group (r : regex).

(** [\s] on a [str] pattern: [Py_UNICODE_ISSPACE]. *)
Definition space (c : char) : bool :=
  ((9 <=? c) && (c <=? 13) || (28 <=? c) && (c <=? 32)
   || (c =? 133) || (c =? 160) || (c =? 5760)
   || (8192 <=? c) && (c <=? 8202)
   || (c =? 8232) || (c =? 8233) || (c =? 8239) || (c =? 8287)
   || (c =? 12288))%N.

(** [.] under [re.DOTALL]. *)
Definition dot (c : char) : bool := true.

Section Matcher.
Variable R : Type.

(** [c*]: as many characters as possible first, then fewer. *)
Fixpoint star_greedy (cls : char -> bool) (s : str)
         (k : str -> option R) : option R :=
  match s with
  | c :: s' =>
      if cls c then
        match star_greedy cls s' k with
        | Some r => Some r
        | None => k s
        end
      else k s
  | [] => k []
  end.

(** [c*?]: as few characters as possible first, then more. *)
Fixpoint star_lazy (cls : char -> bool) (s : str)
         (k : str -> option R) : option R :=
  match k s with
  | Some r => Some r
  | None =>
      match s with
      | c :: s' => if cls c then star_lazy cls s' k else None
      | [] => None
      end
  end.

(** The text matched between the input [s] and what is left of it. *)
Definition consumed (s rest : str) : str :=
  firstn (length s - length rest) s.

Fixpoint rmatch (r : regex) (s : str) (caps : list str)
         (k : str -> list str -> option R) : option R :=
  match r with
  | Lit l =>
      match strip l s with
      | Some s' => k s' caps
      | None => None
      end
  | Star true cls => star_greedy cls s (fun s' => k s' caps)
  | Star false cls => star_lazy cls s (fun s' => k s' caps)
  | Seq r1 r2 => rmatch r1 s caps (fun s1 c1 => rmatch r2 s1 c1 k)
  | Group r1 =>
      rmatch r1 s caps (fun s' c' => k s' (c' ++ [consumed s s']))
  end.
End Matcher.

(** A match object: where the match starts, [group(0)] and the
    captured groups [group(1)], [group(2)], ... *)
Record match_obj := { start : nat; whole : str; groups : list str }.

Definition group (m : match_obj) (i : nat) : str :=
  match i with
  | O => whole m
  | S j => nth j (groups m) []
  end.

Definition match_at (r : regex) (i : nat) (s : str) : option match_obj :=
  rmatch r s []
    (fun rest caps =>
       Some {| start := i; whole := consumed s rest; groups := caps |}).

(** [re.search]: the match at the leftmost position that has one. *)
Fixpoint search_from (r : regex) (i : nat) (s : str) : option match_obj :=
  match match_at r i s with
  | Some m => Some m
  | None =>
      match s with
      | [] => None
      | _ :: s' => search_from r (S i) s'
      end
  end.

Definition search (r : regex) (s : str) : option match_obj :=
  search_from r 0 s.

End Re.

(** ** Python values

    The objects [json.loads] builds.  No two of them share a mutable part,
    so the in-place update of a dict of the tree is the functional update
    of the tree at that place. *)

Unset Elimination Schemes.
Inductive value :=
| VNone
| VBool (b : bool)
| VInt (z : Z)
| VFloat (f : F64.float)
| VStr (s : str)
| VList (l : list value)
| VDict (d : list (str * value)).
Set Elimination Schemes.

Module Dict.

Definition dict := list (str * value).

(** [d.get(k)] *)
Fixpoint get (k : str) (d : dict) : option value :=
  match d with
  | [] => None
  | (k', v) :: d' => if Str.eqb k k' then Some v else get k d'
  end.

(** [d[k] = v]: a key already there keeps its place, a new key goes to
    the end. *)
Fixpoint set (k : str) (v : value) (d : dict) : dict :=
  match d with
  | [] => [(k, v)]
  | (k', v') :: d' =>
      if Str.eqb k k' then (k', v) :: d' else (k', v') :: set k v d'
  end.

Definition keys (d : dict) : list str := map fst d.

End Dict.

(** ** [json.loads]

    The decoder of CPython's [json] package with its default settings
    ([strict=True], no hooks): [JSONDecoder.decode], the scanner
    [scan_once], [JSONObject], [JSONArray], [scanstring] and the number
    pattern.  Positions in the text are replaced by the text that is left.
    The two loops and the scanner call each other, so they recurse on a
    fuel that [loads] sets from the length of the text;
    [loads_fuel_enough] shows that it never runs out.  The interpreter's
    own recursion limit (about a thousand nested arrays or objects) and
    the limit on the number of digits of an [int] are not modelled. *)

Module Json.

Definition dquote : char := 34%N.
Definition backslash : char := 92%N.
Definition ch (a : ascii) : char := N_of_ascii a.
Arguments ch : simpl never.

(** [WHITESPACE_STR = ' \t\n\r'] *)
Definition ws (c : char) : bool :=
  ((c =? 32) || (c =? 9) || (c =? 10) || (c =? 13))%N.

Fixpoint skip_ws (s : str) : str :=
  match s with
  | c :: s' => if ws c then skip_ws s' else s
  | [] => []
  end.

Definition digit (c : char) : option N :=
  if ((48 <=? c) && (c <=? 57))%N then Some (c - 48)%N else None.

Definition hexdigit (c : char) : option N :=
  if ((48 <=? c) && (c <=? 57))%N then Some (c - 48)%N
  else if ((97 <=? c) && (c <=? 102))%N then Some (c - 87)%N
  else if ((65 <=? c) && (c <=? 70))%N then Some (c - 55)%N
  else None.

(** [_decode_uXXXX]: four hexadecimal digits. *)
Definition decode_uXXXX (a b c d : char) : result N :=
  match hexdigit a, hexdigit b, hexdigit c, hexdigit d with
  | Some x, Some y, Some z, Some w =>
      ret (((x * 16 + y) * 16 + z) * 16 + w)%N
  | _, _, _, _ => raise (JSONDecodeError "Invalid \uXXXX escape")
  end.

(** [BACKSLASH]: the one-character escapes. *)
Definition escape (c : char) : option char :=
  if (c =? dquote)%N then Some dquote
  else if (c =? backslash)%N then Some backslash
  else if (c =? ch "/")%N then Some (ch "/")
  else if (c =? ch "b")%N then Some 8%N
  else if (c =? ch "f")%N then Some 12%N
  else if (c =? ch "n")%N then Some 10%N
  else if (c =? ch "r")%N then Some 13%N
  else if (c =? ch "t")%N then Some 9%N
  else None.

Definition high_surrogate (u : N) : bool := ((55296 <=? u) && (u <=? 56319))%N.
Definition low_surrogate (u : N) : bool := ((56320 <=? u) && (u <=? 57343))%N.

(** [scanstring], from the character after the opening quote; [acc]
    holds the decoded characters, last first. *)
Fixpoint scanstring (s : str) (acc : str) : result (str * str) :=
  match s with
  | [] => raise (JSONDecodeError "Unterminated string starting at")
  | c :: r =>
      if (c =? dquote)%N then ret (rev acc, r)
      else if (c =? backslash)%N then
        match r with
        | [] => raise (JSONDecodeError "Unterminated string starting at")
        | e :: r1 =>
            if (e =? ch "u")%N then
              match r1 with
              | h1 :: h2 :: h3 :: h4 :: r2 =>
                  match decode_uXXXX h1 h2 h3 h4 with
                  | inl err => inl err
                  | inr uni =>
                      match r2 with
                      | b :: u :: g1 :: g2 :: g3 :: g4 :: r3 =>
                          if high_surrogate uni && (b =? backslash)%N
                             && (u =? ch "u")%N
                          then
                            match decode_uXXXX g1 g2 g3 g4 with
                            | inl err => inl err
                            | inr uni2 =>
                                if low_surrogate uni2 then
                                  scanstring r3
                                    ((65536 + ((uni - 55296) * 1024
                                               + (uni2 - 56320)))%N :: acc)
                                else scanstring r2 (uni :: acc)
                            end
                          else scanstring r2 (uni :: acc)
                      | _ => scanstring r2 (uni :: acc)
                      end
                  end
              | _ => raise (JSONDecodeError "Invalid \uXXXX escape")
              end
            else
              match escape e with
              | Some c' => scanstring r1 (c' :: acc)
              | None => raise (JSONDecodeError "Invalid \escape")
              end
        end
      else if (c <? 32)%N then
        raise (JSONDecodeError "Invalid control character at")
      else scanstring r (c :: acc)
  end.

(** The longest run of decimal digits at the head of [s], as the
    number it writes and how many digits it has. *)
Fixpoint digits (s : str) (n : N) (len : nat) : N * nat * str :=
  match s with
  | c :: s' =>
      match digit c with
      | Some d => digits s' (n * 10 + d)%N (S len)
      | None => (n, len, s)
      end
  | [] => (n, len, [])
  end.

(** The integer part of [NUMBER_RE]: an optional minus sign, then
    either [0] or a digit that is not zero followed by digits. *)
Definition integer_part (s : str) : option (bool * N * str) :=
  let '(neg, s1) :=
    match s with
    | c :: s' => if (c =? ch "-")%N then (true, s') else (false, s)
    | [] => (false, s)
    end in
  match s1 with
  | c :: s2 =>
      if (c =? ch "0")%N then Some (neg, 0%N, s2)
      else
        match digit c with
        | Some d => let '(n, _, s3) := digits s2 d 1 in Some (neg, n, s3)
        | None => None
        end
  | [] => None
  end.

(** The fraction of [NUMBER_RE], a point and at least one digit: the
    mantissa extended by the digits of the fraction, and their number. *)
Definition frac_part (m : N) (s : str) : option (N * nat * str) :=
  match s with
  | c :: s1 =>
      if (c =? ch ".")%N then
        match digits s1 m 0 with
        | (_, O, _) => None
        | (m', S k, s2) => Some (m', S k, s2)
        end
      else None
  | [] => None
  end.

(** The exponent of [NUMBER_RE]: [e] or [E], an optional sign and at
    least one digit. *)
Definition exp_part (s : str) : option (Z * str) :=
  match s with
  | c :: s1 =>
      if ((c =? ch "e") || (c =? ch "E"))%N then
        let '(neg, s2) :=
          match s1 with
          | g :: s' =>
              if (g =? ch "-")%N then (true, s')
              else if (g =? ch "+")%N then (false, s')
              else (false, s1)
          | [] => (false, s1)
          end in
        match digits s2 0 0 with
        | (_, O, _) => None
        | (e, S _, s3) => Some (if neg then (- Z.of_N e)%Z else Z.of_N e, s3)
        end
      else None
  | [] => None
  end.

(** [match_number] and the conversion of the scanner: [int(text)]
    without fraction and exponent, [float(text)] with one of them. *)
Definition match_number (s : str) : option (value * str) :=
  match integer_part s with
  | None => None
  | Some (neg, n, s1) =>
      let '(m, nfrac, s2, has_frac) :=
        match frac_part n s1 with
        | Some (m, k, s2) => (m, k, s2, true)
        | None => (n, O, s1, false)
        end in
      let '(e, s3, has_exp) :=
        match exp_part s2 with
        | Some (e, s3) => (e, s3, true)
        | None => (0%Z, s2, false)
        end in
      if has_frac || has_exp then
        Some (VFloat (F64.of_decimal neg m (e - Z.of_nat nfrac)), s3)
      else
        Some (VInt (if neg then (- Z.of_N n)%Z else Z.of_N n), s3)
  end.

Definition expecting_value : exn := JSONDecodeError "Expecting value".

Definition keyword (s : str) : option (value * str) :=
  match strip (lit "null") s with
  | Some r => Some (VNone, r)
  | None =>
  match strip (lit "true") s with
  | Some r => Some (VBool true, r)
  | None =>
  match strip (lit "false") s with
  | Some r => Some (VBool false, r)
  | None => None
  end end end.

Definition constant (s : str) : option (value * str) :=
  match strip (lit "NaN") s with
  | Some r => Some (VFloat S754_nan, r)
  | None =>
  match strip (lit "Infinity") s with
  | Some r => Some (VFloat (S754_infinity false), r)
  | None =>
  match strip (lit "-Infinity") s with
  | Some r => Some (VFloat (S754_infinity true), r)
  | None => None
  end end end.

(** [scan_once] with the bodies of [JSONObject] and [JSONArray]: the
    part before the loop is in [scan_once], the loops are
    [object_loop] (entered after the opening quote of a key) and
    [array_loop] (entered at a value). *)
Fixpoint scan_once (fuel : nat) (s : str) {struct fuel}
  : result (value * str) :=
  match fuel with
  | O => raise RecursionError
  | S fuel' =>
      match s with
      | [] => raise expecting_value
      | c :: r =>
          if (c =? dquote)%N then
            '(k, r') <- scanstring r [] ;; ret (VStr k, r')
          else if (c =? ch "{")%N then
            match skip_ws r with
            | c1 :: r1 =>
                if (c1 =? ch "}")%N then ret (VDict [], r1)
                else if (c1 =? dquote)%N then object_loop fuel' r1 []
                else raise (JSONDecodeError
                     "Expecting property name enclosed in double quotes")
            | [] => raise (JSONDecodeError
                     "Expecting property name enclosed in double quotes")
            end
          else if (c =? ch "[")%N then
            match skip_ws r with
            | c1 :: r1 =>
                if (c1 =? ch "]")%N then ret (VList [], r1)
                else array_loop fuel' (c1 :: r1) []
            | [] => array_loop fuel' [] []
            end
          else
            match keyword s with
            | Some vr => ret vr
            | None =>
                match match_number s with
                | Some vr => ret vr
                | None =>
                    match constant s with
                    | Some vr => ret vr
                    | None => raise expecting_value
                    end
                end
            end
      end
  end

with object_loop (fuel : nat) (s : str) (pairs : Dict.dict) {struct fuel}
  : result (value * str) :=
  match fuel with
  | O => raise RecursionError
  | S fuel' =>
      '(key, s1) <- scanstring s [] ;;
      match skip_ws s1 with
      | c :: s2 =>
          if (c =? ch ":")%N then
            '(v, s3) <- scan_once fuel' (skip_ws s2) ;;
            let pairs' := Dict.set key v pairs in
            match skip_ws s3 with
            | c' :: s4 =>
                if (c' =? ch "}")%N then ret (VDict pairs', s4)
                else if (c' =? ch ",")%N then
                  match skip_ws s4 with
                  | q :: s5 =>
                      if (q =? dquote)%N then object_loop fuel' s5 pairs'
                      else raise (JSONDecodeError
                     "Expecting property name enclosed in double quotes")
                  | [] => raise (JSONDecodeError
                     "Expecting property name enclosed in double quotes")
                  end
                else raise (JSONDecodeError "Expecting ',' delimiter")
            | [] => raise (JSONDecodeError "Expecting ',' delimiter")
            end
          else raise (JSONDecodeError "Expecting ':' delimiter")
      | [] => raise (JSONDecodeError "Expecting ':' delimiter")
      end
  end

with array_loop (fuel : nat) (s : str) (values : list value) {struct fuel}
  : result (value * str) :=
  match fuel with
  | O => raise RecursionError
  | S fuel' =>
      '(v, s1) <- scan_once fuel' s ;;
      let values' := values ++ [v] in
      match skip_ws s1 with
      | c :: s2 =>
          if (c =? ch "]")%N then ret (VList values', s2)
          else if (c =? ch ",")%N then array_loop fuel' (skip_ws s2) values'
          else raise (JSONDecodeError "Expecting ',' delimiter")
      | [] => raise (JSONDecodeError "Expecting ',' delimiter")
      end
  end.

(** [JSONDecoder.decode] *)
Definition decode (fuel : nat) (s : str) : result value :=
  '(obj, rest) <- scan_once fuel (skip_ws s) ;;
  match skip_ws rest with
  | [] => ret obj
  | _ :: _ => raise (JSONDecodeError "Extra data")
  end.

(** [json.loads] of a [str] *)
Definition loads (s : str) : result value :=
  match s with
  | 65279%N :: _ => raise (JSONDecodeError "Unexpected UTF-8 BOM")
  | _ => decode (2 * List.length s + 2) s
  end.

End Json.

(** ** The Python operations of the weight formula *)

Module Py.

(** [obj[key]] for a [str] key. *)
Definition getitem (obj : value) (key : str) : result value :=
  match obj with
  | VDict d =>
      match Dict.get key d with
      | Some v => ret v
      | None => raise (KeyError key)
      end
  | VList _ =>
      raise (TypeError "list indices must be integers or slices, not str")
  | VStr _ => raise (TypeError "string indices must be integers")
  | _ => raise (TypeError "object is not subscriptable")
  end.

(** [obj[key] = v] for a [str] key. *)
Definition setitem (obj : value) (key : str) (v : value) : result value :=
  match obj with
  | VDict d => ret (VDict (Dict.set key v d))
  | VList _ =>
      raise (TypeError "list indices must be integers or slices, not str")
  | _ => raise (TypeError "object does not support item assignment")
  end.

(** What a [for] loop over [obj] visits: the items of a list, the keys
    of a dict, the characters of a str. *)
Definition iter (obj : value) : result (list value) :=
  match obj with
  | VList l => ret l
  | VDict d => ret (map (fun kv => VStr (fst kv)) d)
  | VStr s => ret (map (fun c => VStr [c]) s)
  | _ => raise (TypeError "object is not iterable")
  end.

Definition Z_of_bool (b : bool) : Z := if b then 1 else 0.

(** [float_pow] at the exponent 2.0: a NaN stays, an infinity and a
    zero lose their sign, and on finite values the C library's [pow] is
    taken to return the correctly rounded square; a result out of range
    is an [OverflowError]. *)
Definition float_pow2 (x : F64.float) : result F64.float :=
  match x with
  | S754_nan => ret S754_nan
  | S754_infinity _ => ret (S754_infinity false)
  | S754_zero _ => ret (S754_zero false)
  | S754_finite _ m e =>
      let y := F64.mul (S754_finite false m e) (S754_finite false m e) in
      if F64.is_inf y then
        raise (OverflowError "(34, 'Numerical result out of range')")
      else ret y
  end.

(** [x ** 2] *)
Definition pow2 (x : value) : result value :=
  match x with
  | VInt z => ret (VInt (z * z))
  | VBool b => ret (VInt (Z_of_bool b * Z_of_bool b))
  | VFloat f => y <- float_pow2 f ;; ret (VFloat y)
  | _ => raise (TypeError "unsupported operand type(s) for ** or pow()")
  end.

(** [long_true_divide] by a positive [int]: the correctly rounded
    quotient, or an [OverflowError]. *)
Definition int_truediv (a : Z) (b : positive) : result F64.float :=
  match a with
  | Z0 => ret (S754_zero false)
  | Zpos n =>
      let y := F64.of_quotient false n b in
      if F64.is_inf y then
        raise (OverflowError "integer division result too large for a float")
      else ret y
  | Zneg n =>
      let y := F64.of_quotient true n b in
      if F64.is_inf y then
        raise (OverflowError "integer division result too large for a float")
      else ret y
  end.

(** [x / b] for a positive [int] literal [b]. *)
Definition truediv (x : value) (b : positive) : result F64.float :=
  match x with
  | VInt z => int_truediv z b
  | VBool c => int_truediv (Z_of_bool c) b
  | VFloat f => ret (F64.div f (F64.of_Z (Zpos b)))
  | _ => raise (TypeError "unsupported operand type(s) for /")
  end.

(** [PyLong_AsDouble] *)
Definition int_to_float (z : Z) : result F64.float :=
  let y := F64.of_Z z in
  if F64.is_inf y then
    raise (OverflowError "int too large to convert to float")
  else ret y.

(** [x * y] for a [float] [x]. *)
Definition float_mul (x : F64.float) (y : value) : result F64.float :=
  match y with
  | VFloat g => ret (F64.mul x g)
  | VInt z => g <- int_to_float z ;; ret (F64.mul x g)
  | VBool b => g <- int_to_float (Z_of_bool b) ;; ret (F64.mul x g)
  | VStr _ | VList _ =>
      raise (TypeError "can't multiply sequence by non-int of type 'float'")
  | _ => raise (TypeError "unsupported operand type(s) for *")
  end.

(** [except Exception] catches every exception of the model: each is a
    subclass of [Exception]. *)
Definition is_Exception (e : exn) : bool :=
  match e with
  | ValueError _ | JSONDecodeError _ | KeyError _ | TypeError _
  | AttributeError _ | OverflowError _ | RecursionError
  | UnicodeEncodeError _ => true
  end.

(** A surrogate code point, U+D800 to U+DFFF: the one kind of code point
    of a [str] that UTF-8 does not encode. *)
Definition surrogate (c : char) : bool :=
  (55296 <=? c)%N && (c <=? 57343)%N.

(** Whether the stream can encode [text]. *)
Definition encodable (text : str) : bool := negb (existsb surrogate text).

Definition surrogates_not_allowed : exn :=
  UnicodeEncodeError
    "'utf-8' codec can't encode character: surrogates not allowed".

(** [print(text)] *)
Definition print (text : str) : result unit :=
  if encodable text then ret tt else raise surrogates_not_allowed.

(** [n] as [width] hexadecimal digits, in lower case. *)
Fixpoint hex (width : nat) (n : N) : str :=
  match width with
  | O => []
  | S w =>
      let d := (n mod 16)%N in
      hex w (n / 16)%N ++ [if (d <? 10)%N then (48 + d)%N else (87 + d)%N]
  end.

(** One character of [repr(s)] between the quotes [quote].  Above U+007F
    Python escapes the code points that are not printable; of those the
    model escapes the surrogates and keeps the others. *)
Definition repr_char (quote c : char) : str :=
  if (c =? quote)%N || (c =? 92)%N then [92%N; c]
  else if (c =? 9)%N then [92%N; 116%N]
  else if (c =? 10)%N then [92%N; 110%N]
  else if (c =? 13)%N then [92%N; 114%N]
  else if (c <? 32)%N || (c =? 127)%N then [92%N; 120%N] ++ hex 2 c
  else if surrogate c then [92%N; 117%N] ++ hex 4 c
  else [c].

(** [repr(s)] for a [str]: between apostrophes, or between double quotes
    when [s] holds an apostrophe and no double quote. *)
Definition repr (s : str) : str :=
  let quote := if Str.mem 39%N s && negb (Str.mem 34%N s) then 34%N
               else 39%N in
  quote :: flat_map (repr_char quote) s ++ [quote].

(** [str(e)]: the message, and for a [KeyError] the [repr] of the key. *)
Definition str_of (e : exn) : str :=
  match e with
  | KeyError key => repr key
  | ValueError msg | JSONDecodeError msg | TypeError msg
  | AttributeError msg | OverflowError msg | UnicodeEncodeError msg =>
      Str.text msg
  | RecursionError => Str.text "maximum recursion depth exceeded"
  end.

End Py.

(** ** [QuantitySurveyorAI._parse_response] *)

Module QuantitySurveyorAI.

(** [r'```json\s*(\{.*?\})\s*```'] with [re.DOTALL] *)
Definition fenced_re : Re.regex :=
  Re.Seq (Re.Lit (lit "```json"))
    (Re.Seq (Re.Star true Re.space)
       (Re.Seq
          (Re.Group
             (Re.Seq (Re.Lit (lit "{"))
                (Re.Seq (Re.Star false Re.dot) (Re.Lit (lit "}")))))
          (Re.Seq (Re.Star true Re.space) (Re.Lit (lit "```"))))).

(** [r'\{.*\}'] with [re.DOTALL] *)
Definition brace_re : Re.regex :=
  Re.Seq (Re.Lit (lit "{"))
    (Re.Seq (Re.Star true Re.dot) (Re.Lit (lit "}"))).

(** Lines 186-195: the candidate [json_str]. *)
Definition json_str (response_text : str) : result str :=
  match Re.search fenced_re response_text with
  | Some json_match => ret (Re.group json_match 1)
  | None =>
      match Re.search brace_re response_text with
      | Some json_match => ret (Re.group json_match 0)
      | None => raise (ValueError "No JSON found in response")
      end
  end.

(** The float literal [1.02]. *)
Definition wastage : F64.float := F64.of_decimal false 102 (-2).

(** Lines 203-204: [round((dia ** 2 / 162) * length * 1.02, 2)]. *)
Definition weight (dia length : value) : result F64.float :=
  sq <- Py.pow2 dia ;;
  per_metre <- Py.truediv sq 162 ;;
  w <- Py.float_mul per_metre length ;;
  ret (F64.round2 (F64.mul w wastage)).

(** Lines 201-204: the body of the loop on one [bbs_item]. *)
Definition recalculate_item (bbs_item : value) : result value :=
  dia <- Py.getitem bbs_item (lit "dia_mm") ;;
  length <- Py.getitem bbs_item (lit "total_length") ;;
  w <- weight dia length ;;
  Py.setitem bbs_item (lit "weight_kg") (VFloat w).

(** Lines 200-206: the loop over [data.get('bbs', [])], and [data]
    after it.  The items of a list are updated where they are; the keys
    of a dict and the characters of a str are visited as well, and the
    body then raises on the first of them. *)
Definition recalculate (data : value) : result value :=
  match data with
  | VDict d =>
      match Dict.get (lit "bbs") d with
      | None => ret data
      | Some bbs =>
          items <- Py.iter bbs ;;
          items' <- mapM recalculate_item items ;;
          match bbs with
          | VList _ => ret (VDict (Dict.set (lit "bbs") (VList items') d))
          | _ => ret data
          end
      end
  | _ => raise (AttributeError "object has no attribute 'get'")
  end.

(** Lines 185-206: the [try] block. *)
Definition try_block (response_text : str) : result value :=
  s <- json_str response_text ;;
  data <- Json.loads s ;;
  recalculate data.

(** Lines 215-221: the value returned by the handler. *)
Definition placeholder : value :=
  VDict
    [ (lit "scale", VStr (lit "Unknown"));
      (lit "boq", VList []);
      (lit "bbs", VList []);
      (lit "notes", VList [VStr (lit "Parsing failed - see raw response above")]);
      (lit "assumptions", VList []) ].

(** ['='*80] *)
Definition rule : str := repeat 61%N 80.

(** Lines 209-221: the handler.  The first text starts with U+26A0
    U+FE0F and two spaces. *)
Definition handler (e : exn) (response_text : str) : result value :=
  'tt <- Py.print ([9888%N; 65039%N] ++ lit "  Parse error: "
                    ++ Py.str_of e) ;;
  'tt <- Py.print (nl ++ rule) ;;
  'tt <- Py.print (lit "RAW RESPONSE:") ;;
  'tt <- Py.print rule ;;
  'tt <- Py.print response_text ;;
  'tt <- Py.print (rule ++ nl) ;;
  ret placeholder.

Definition _parse_response (response_text : str) : result value :=
  match try_block response_text with
  | inr data => ret data
  | inl e => if Py.is_Exception e then handler e response_text else raise e
  end.

End QuantitySurveyorAI.

Import QuantitySurveyorAI.

(** * The rest of the file: the tables, the prompt and the calls to the service

    [format_boq_table] and [format_bbs_table] (lines 227-273), with the
    [tabulate] of the library of that name as a parameter; the methods
    [__init__], [analyze_pdf] and [_create_extraction_prompt] of the class
    and [analyze_pdf_programmatically] (lines 43-180 and 455-472), with
    the answers of the service as a script and its calls as a log.  Calls
    to the service are taken to return; [print] is as in the parser.
    [save_results], [print_summary] and [main] are not modelled: they
    depend on [str] of a float, on the built-in [sum] and on the
    console. *)

(** ** More of Python *)

Module Builtins.

(** [bool(x)], the test of [if not x] *)
Definition truthy (v : value) : bool :=
  match v with
  | VNone => false
  | VBool b => b
  | VInt z => negb (z =? 0)
  | VFloat f => match f with S754_zero _ => false | _ => true end
  | VStr s => match s with [] => false | _ :: _ => true end
  | VList l => match l with [] => false | _ :: _ => true end
  | VDict d => match d with [] => false | _ :: _ => true end
  end.

(** [obj.get(key, default)] *)
Definition get (obj : value) (key : str) (default : value) : result value :=
  match obj with
  | VDict d =>
      ret match Dict.get key d with
          | Some v => v
          | None => default
          end
  | _ => raise (AttributeError "object has no attribute 'get'")
  end.

Definition add : F64.float -> F64.float -> F64.float :=
  SFadd F64.prec F64.emax.

Fixpoint uint_digits (d : Decimal.uint) : str :=
  match d with
  | Decimal.Nil => []
  | Decimal.D0 d' => 48%N :: uint_digits d'
  | Decimal.D1 d' => 49%N :: uint_digits d'
  | Decimal.D2 d' => 50%N :: uint_digits d'
  | Decimal.D3 d' => 51%N :: uint_digits d'
  | Decimal.D4 d' => 52%N :: uint_digits d'
  | Decimal.D5 d' => 53%N :: uint_digits d'
  | Decimal.D6 d' => 54%N :: uint_digits d'
  | Decimal.D7 d' => 55%N :: uint_digits d'
  | Decimal.D8 d' => 56%N :: uint_digits d'
  | Decimal.D9 d' => 57%N :: uint_digits d'
  end.

(** The digits of a natural number in base ten. *)
Definition decimal (n : N) : str := uint_digits (N.to_uint n).

(** The value [m * 2^e] in hundredths, rounded to the nearest integer,
    ties to even. *)
Definition hundredths (m : positive) (e : Z) : Z :=
  match e with
  | Zneg k => F64.round_half_even (Zpos m * 100) (Zpos (Pos.pow 2 k))
  | _ => Zpos m * 100 * 2 ^ e
  end.

(** [h] hundredths written with two decimals. *)
Definition fixed2 (s : bool) (h : Z) : str :=
  (if s then lit "-" else [])
  ++ decimal (Z.to_N (h / 100)) ++ lit "."
  ++ [(48 + Z.to_N (h mod 100 / 10))%N; (48 + Z.to_N (h mod 10))%N].

(** [format(x, '.2f')] of a float: the exact value rounded to two
    decimals, ties to even ([_Py_dg_dtoa], mode 3); the sign of a
    negative number stays when the digits are all zero. *)
Definition float_2f (x : F64.float) : str :=
  match x with
  | S754_nan => lit "nan"
  | S754_infinity s => if s then lit "-inf" else lit "inf"
  | S754_zero s => fixed2 s 0
  | S754_finite s m e => fixed2 s (hundredths m e)
  end.

(** [f"{v:.2f}"]: an [int] or a [bool] is converted to a float first;
    the other types refuse the format. *)
Definition format_2f (v : value) : result str :=
  match v with
  | VFloat f => ret (float_2f f)
  | VInt z => g <- Py.int_to_float z ;; ret (float_2f g)
  | VBool b => g <- Py.int_to_float (Py.Z_of_bool b) ;; ret (float_2f g)
  | VStr _ =>
      raise (ValueError "Unknown format code 'f' for object of type 'str'")
  | VNone =>
      raise (TypeError
               "unsupported format string passed to NoneType.__format__")
  | VList _ =>
      raise (TypeError "unsupported format string passed to list.__format__")
  | VDict _ =>
      raise (TypeError "unsupported format string passed to dict.__format__")
  end.

(** The values a running total takes: it starts as the [int] 0. *)
Inductive number :=
| NInt (z : Z)
| NFloat (f : F64.float).

Definition value_of (n : number) : value :=
  match n with
  | NInt z => VInt z
  | NFloat f => VFloat f
  end.

(** [total += x] for a number [total]. *)
Definition add_to (total : number) (x : value) : result number :=
  match total, x with
  | NInt a, VInt b => ret (NInt (a + b))
  | NInt a, VBool b => ret (NInt (a + Py.Z_of_bool b))
  | NInt a, VFloat g => f <- Py.int_to_float a ;; ret (NFloat (add f g))
  | NFloat f, VFloat g => ret (NFloat (add f g))
  | NFloat f, VInt b => g <- Py.int_to_float b ;; ret (NFloat (add f g))
  | NFloat f, VBool b =>
      g <- Py.int_to_float (Py.Z_of_bool b) ;; ret (NFloat (add f g))
  | _, _ => raise (TypeError "unsupported operand type(s) for +=")
  end.

(** [f"{text:<60}"]: [text] with spaces after it up to sixty
    characters. *)
Definition ljust60 (text : str) : str :=
  text ++ repeat 32%N (60 - List.length text).

End Builtins.

(** ** [format_boq_table] and [format_bbs_table] *)

Section Tables.

(** [tabulate(data, headers=headers, tablefmt="grid")] *)
Variable tabulate : list (list value) -> list str -> str.

Definition boq_headers : list str :=
  [lit "Component"; lit "Type"; lit "L(m)"; lit "B(m)"; lit "D(m)";
   lit "Qty"; lit "Unit"; lit "Conf."; lit "Source"].

(** [f"{item[key]:.2f}"] *)
Definition cell_2f (item : value) (key : str) : result value :=
  v <- Py.getitem item key ;;
  text <- Builtins.format_2f v ;;
  ret (VStr text).

(** Lines 234-244: the row of one item. *)
Definition boq_row (item : value) : result (list value) :=
  component <- Py.getitem item (lit "component") ;;
  type <- Py.getitem item (lit "type") ;;
  length <- cell_2f item (lit "length") ;;
  breadth <- cell_2f item (lit "breadth") ;;
  depth <- cell_2f item (lit "depth") ;;
  quantity <- cell_2f item (lit "quantity") ;;
  unit <- Py.getitem item (lit "unit") ;;
  confidence <- Py.getitem item (lit "confidence") ;;
  source <- Py.getitem item (lit "source") ;;
  ret [component; type; length; breadth; depth; quantity; unit; confidence;
       source].

Definition format_boq_table (boq_items : value) : result str :=
  if negb (Builtins.truthy boq_items) then ret (lit "No BOQ items found.")
  else
    items <- Py.iter boq_items ;;
    data <- mapM boq_row items ;;
    ret (tabulate data boq_headers).

Definition bbs_headers : list str :=
  [lit "Mark"; lit "Member"; lit "Dia(mm)"; lit "Count"; lit "Length(m)";
   lit "Total(m)"; lit "Weight(kg)"; lit "Notes"].

(** Lines 259-268: the row of one item. *)
Definition bbs_row (item : value) : result (list value) :=
  mark <- Py.getitem item (lit "mark") ;;
  member <- Py.getitem item (lit "member") ;;
  dia_mm <- Py.getitem item (lit "dia_mm") ;;
  count <- Py.getitem item (lit "count") ;;
  length <- cell_2f item (lit "length") ;;
  total_length <- cell_2f item (lit "total_length") ;;
  weight_kg <- cell_2f item (lit "weight_kg") ;;
  notes <- Py.getitem item (lit "notes") ;;
  ret [mark; member; dia_mm; count; length; total_length; weight_kg; notes].

(** Lines 258-269: the loop, with [data] and [total_weight] as it goes. *)
Fixpoint bbs_loop (items : list value) (data : list (list value))
         (total_weight : Builtins.number)
  : result (list (list value) * Builtins.number) :=
  match items with
  | [] => ret (data, total_weight)
  | item :: rest =>
      row <- bbs_row item ;;
      weight_kg <- Py.getitem item (lit "weight_kg") ;;
      total <- Builtins.add_to total_weight weight_kg ;;
      bbs_loop rest (data ++ [row]) total
  end.

(** Line 272: the line under the table. *)
Definition total_line (total : str) : str :=
  nl ++ nl ++ Builtins.ljust60 (lit "TOTAL STEEL:") ++ lit " " ++ total
  ++ lit " kg".

Definition format_bbs_table (bbs_items : value) : result str :=
  if negb (Builtins.truthy bbs_items) then ret (lit "No BBS items found.")
  else
    items <- Py.iter bbs_items ;;
    '(data, total_weight) <- bbs_loop items [] (Builtins.NInt 0) ;;
    total <- Builtins.format_2f (Builtins.value_of total_weight) ;;
    ret (tabulate data bbs_headers ++ total_line total).

End Tables.

(** ** The prompt and the calls to the service *)

Module Analyzer.

(** Lines 95-180: the text of the prompt, line by line. *)
Definition prompt_lines : list str :=
  [ lit "You are an expert Construction Quantity Surveyor analyzing this PDF drawing.";
    [];
    lit "EXTRACT ALL QUANTITIES FOR:";
    [];
    lit "A. FOUNDATION";
    lit "   - PCC bed: length " ++ [215%N] ++ lit " breadth " ++ [215%N] ++ lit " thickness " ++ [8594%N] ++ lit " volume (m" ++ [179%N] ++ lit ")";
    lit "   - RCC footing: length " ++ [215%N] ++ lit " breadth " ++ [215%N] ++ lit " depth " ++ [8594%N] ++ lit " volume (m" ++ [179%N] ++ lit ")";
    lit "   - Reinforcement bars: diameter (mm), spacing, count";
    [];
    lit "B. SLAB";
    lit "   - RCC slab: length " ++ [215%N] ++ lit " breadth " ++ [215%N] ++ lit " thickness " ++ [8594%N] ++ lit " volume (m" ++ [179%N] ++ lit ")";
    lit "   - Reinforcement: main & distribution bars";
    [];
    lit "C. STAIRCASE";
    lit "   - Dimensions: tread, riser, width";
    lit "   - Number of steps";
    lit "   - Concrete volume (m" ++ [179%N] ++ lit ")";
    [];
    lit "D. ROOM AREAS";
    lit "   - Each room: length " ++ [215%N] ++ lit " breadth " ++ [8594%N] ++ lit " area (m" ++ [178%N] ++ lit ")";
    [];
    lit "E. STEEL (BBS)";
    lit "   For each member:";
    lit "   - Bar diameter (mm)";
    lit "   - Number of bars";
    lit "   - Total length (m)";
    lit "   - Weight (kg) = (diameter" ++ [178%N] ++ lit "/162) " ++ [215%N] ++ lit " total_length";
    [];
    lit "RULES:";
    lit "1. Detect scale (e.g., '1:100', '1' = 8" ++ [39%N] ++ lit "0'')";
    lit "2. Convert ALL to METERS (1 ft = 0.3048 m, 1 in = 0.0254 m)";
    lit "3. Extract from ALL views (plan, section, elevation, details)";
    lit "4. State assumptions if dimensions missing";
    [];
    lit "OUTPUT ONLY THIS JSON (no other text):";
    [];
    lit "```json";
    lit "{";
    lit "  'scale': '1:100',";
    lit "  'boq': [";
    lit "    {";
    lit "      'component': 'Foundation F1',";
    lit "      'type': 'PCC Bed',";
    lit "      'length': 2.0,";
    lit "      'breadth': 2.0,";
    lit "      'depth': 0.15,";
    lit "      'quantity': 0.6,";
    lit "      'unit': 'm3',";
    lit "      'source': 'Foundation detail',";
    lit "      'confidence': 'High'";
    lit "    },";
    lit "    {";
    lit "      'component': 'Bedroom 1',";
    lit "      'type': 'Room Area',";
    lit "      'length': 2.52,";
    lit "      'breadth': 3.13,";
    lit "      'depth': 0.0,";
    lit "      'quantity': 7.89,";
    lit "      'unit': 'm2',";
    lit "      'source': 'Plan view',";
    lit "      'confidence': 'High'";
    lit "    }";
    lit "  ],";
    lit "  'bbs': [";
    lit "    {";
    lit "      'mark': 'F1-M1',";
    lit "      'member': 'Footing main',";
    lit "      'dia_mm': 12,";
    lit "      'count': 8,";
    lit "      'length': 2.2,";
    lit "      'total_length': 17.6,";
    lit "      'weight_kg': 1.32,";
    lit "      'notes': '12mm @ 200mm c/c'";
    lit "    }";
    lit "  ],";
    lit "  'notes': [";
    lit "    'Scale: 1:100',";
    lit "    'All units in meters'";
    lit "  ],";
    lit "  'assumptions': [";
    lit "    'Slab thickness 150mm assumed where not specified'";
    lit "  ]";
    lit "}";
    lit "```";
    [];
    lit "Extract NOW. Output ONLY valid JSON." ].
Fixpoint join (sep : str) (lines : list str) : str :=
  match lines with
  | [] => []
  | [l] => l
  | l :: rest => l ++ sep ++ join sep rest
  end.

Definition _create_extraction_prompt : str := join nl prompt_lines.

(** What the program asks of the [genai] package. *)
Inductive call :=
| Configure (api_key : str)
| GenerativeModel (model_name : string)
| UploadFile (pdf_path : str)
| Sleep (seconds : Z)
| GetFile
| GenerateContent (prompt : str) (timeout : Z).

(** How a call of the program ends; [Waiting] when the script of the
    service ends while the file is still being processed. *)
Inductive outcome :=
| Returned (result : value)
| Raised (e : exn)
| Waiting.

(** The answers of the service: the state of the file after the upload,
    its states at the calls of [get_file], and the text of the
    response. *)
Record service := {
  first_state : string;
  later_states : list string;
  response_text : str
}.

Definition GEMINI_MODEL : string := "gemini-1.5-pro".

Definition key_required : string :=
  "❌ Gemini API key required!
Get one from: https://makersuite.google.com/app/apikey
Set it: export GEMINI_API_KEY='your-key-here'".

(** Lines 43-53: the calls made, and the exception if any.  The text
    printed starts with U+2705. *)
Definition __init__ (api_key : str) : list call * result unit :=
  match api_key with
  | [] => ([], raise (ValueError key_required))
  | _ :: _ =>
      ([Configure api_key; GenerativeModel GEMINI_MODEL],
       Py.print ([9989%N] ++ lit " Gemini " ++ Str.text GEMINI_MODEL
                   ++ lit " initialized!"))
  end.

(** Lines 58-63: what is printed before the upload; the second text
    starts with U+1F4C4, the last with U+1F4E4. *)
Definition announce (pdf_path : str) : result unit :=
  'tt <- Py.print (nl ++ rule) ;;
  'tt <- Py.print ([128196%N] ++ lit " ANALYZING: " ++ pdf_path) ;;
  'tt <- Py.print (rule ++ nl) ;;
  Py.print ([128228%N] ++ lit " Uploading PDF to Gemini...").

(** Line 68: [print(..., end="\r")]; the text starts with U+23F3. *)
Definition processing : str :=
  [9203%N] ++ lit " Processing PDF..." ++ [13%N].

(** Lines 67-70: the loop that waits for the file; it returns the calls
    made and the state that ended it, [None] when the script of the
    service ends first. *)
Fixpoint wait_for_file (state : string) (later : list string)
  : list call * result (option string) :=
  if String.eqb state "PROCESSING" then
    match Py.print processing with
    | inl e => ([], raise e)
    | inr _ =>
        match later with
        | [] => ([Sleep 2; GetFile], ret None)
        | state' :: later' =>
            let '(calls, final) := wait_for_file state' later' in
            (Sleep 2 :: GetFile :: calls, final)
        end
    end
  else ([], ret (Some state)).

(** Lines 75-81: what is printed between the upload and the request;
    the texts start with U+2705 and U+1F916. *)
Definition ready : result unit :=
  'tt <- Py.print ([9989%N] ++ lit " PDF uploaded successfully!    " ++ nl) ;;
  Py.print ([129302%N] ++ lit " Analyzing with Gemini AI..." ++ nl).

(** Line 90; the text starts with U+2705. *)
Definition complete : str := [9989%N] ++ lit " Analysis complete!" ++ nl.

(** Lines 55-91 *)
Definition analyze_pdf (pdf_path : str) (svc : service)
  : list call * outcome :=
  match announce pdf_path with
  | inl e => ([], Raised e)
  | inr _ =>
      let '(calls, final) :=
        wait_for_file (first_state svc) (later_states svc) in
      let uploaded := UploadFile pdf_path :: calls in
      match final with
      | inl e => (uploaded, Raised e)
      | inr None => (uploaded, Waiting)
      | inr (Some state) =>
          if String.eqb state "FAILED" then
            (uploaded, Raised (ValueError "❌ PDF processing failed!"))
          else
            match ready with
            | inl e => (uploaded, Raised e)
            | inr _ =>
                let calls' :=
                  uploaded ++ [GenerateContent _create_extraction_prompt 600]
                in
                match _parse_response (response_text svc) with
                | inl e => (calls', Raised e)
                | inr result =>
                    match Py.print complete with
                    | inl e => (calls', Raised e)
                    | inr _ => (calls', Returned result)
                    end
                end
            end
      end
  end.

(** Lines 455-472: [api_key or GEMINI_API_KEY], the constructor, then
    [analyze_pdf]. *)
Definition analyze_pdf_programmatically (pdf_path : str)
           (api_key : option str) (GEMINI_API_KEY : str) (svc : service)
  : list call * outcome :=
  let key :=
    match api_key with
    | Some (c :: k) => c :: k
    | _ => GEMINI_API_KEY
    end in
  match __init__ key with
  | (calls, inl e) => (calls, Raised e)
  | (calls, inr _) =>
      let '(calls', out) := analyze_pdf pdf_path svc in
      (calls ++ calls', out)
  end.

End Analyzer.

(** * Vocabulary of the statements *)

Definition lbrace : char := 123%N.
Definition rbrace : char := 125%N.
Definition backtick : char := 96%N.
Definition open_fence : str := lit "```json".
Definition close_fence : str := lit "```".

(** The continuation of the fenced pattern after the group: optional
    white space and the closing fence. *)
Definition after_group (i : nat) (s : str) (s5 : str) (caps : list str)
  : option Re.match_obj :=
  Re.star_greedy Re.space s5
    (fun s6 =>
       match strip (lit "```") s6 with
       | Some s7 =>
           Some {| Re.start := i; Re.whole := Re.consumed s s7;
                   Re.groups := caps |}
       | None => None
       end).

(** The three ways the loop can finish without an exception. *)
Inductive recalculated : value -> value -> Prop :=
| rec_no_bbs d :
    Dict.get (lit "bbs") d = None -> recalculated (VDict d) (VDict d)
| rec_list d l l' :
    Dict.get (lit "bbs") d = Some (VList l) ->
    Forall2 (fun a b => recalculate_item a = inr b) l l' ->
    recalculated (VDict d) (VDict (Dict.set (lit "bbs") (VList l') d))
| rec_empty d bbs :
    Dict.get (lit "bbs") d = Some bbs -> bbs = VDict [] \/ bbs = VStr [] ->
    recalculated (VDict d) (VDict d).

(** The values of an array, in the order in which the loop scans them in
    the text: a value, then either the closing bracket or a comma and the
    values that follow. *)
Inductive array_items : nat -> str -> list value -> str -> Prop :=
| items_last fuel s v s1 rest :
    Json.scan_once fuel s = inr (v, s1) ->
    Json.skip_ws s1 = Json.ch "]" :: rest ->
    array_items (S fuel) s [v] rest
| items_more fuel s v s1 s2 vs rest :
    Json.scan_once fuel s = inr (v, s1) ->
    Json.skip_ws s1 = Json.ch "," :: s2 ->
    array_items fuel (Json.skip_ws s2) vs rest ->
    array_items (S fuel) s (v :: vs) rest.

(** White space skipped, as [\s*] skips it before a character that is
    not white space. *)
Fixpoint skip_space (s : str) : str :=
  match s with
  | c :: s' => if Re.space c then skip_space s' else s
  | [] => []
  end.

(** [s] begins with optional white space and a closing fence. *)
Definition fence_follows (s : str) : bool :=
  match strip close_fence (skip_space s) with
  | Some _ => true
  | None => false
  end.

(** Some [}] of [s] is followed by optional white space and a closing
    fence. *)
Fixpoint closes_early (s : str) : bool :=
  match s with
  | [] => false
  | c :: s' => (c =? rbrace)%N && fence_follows s' || closes_early s'
  end.

(** The text after the first occurrence of [p] in [s]. *)
Fixpoint after (p s : str) : option str :=
  match strip p s with
  | Some r => Some r
  | None =>
      match s with
      | [] => None
      | _ :: s' => after p s'
      end
  end.

(** The text holds a json-tagged fenced block: an opening fence
    [```json] and, later, a closing fence. *)
Definition has_fenced_block (text : str) : bool :=
  match after open_fence text with
  | Some r =>
      match after close_fence r with
      | Some _ => true
      | None => false
      end
  | None => false
  end.

(** The text holds a [{] and, later, a [}]. *)
Definition has_brace_span (text : str) : bool :=
  match after [lbrace] text with
  | Some r => Str.mem rbrace r
  | None => false
  end.

(** The numbers of Python that JSON can denote; [bool] is a subclass of
    [int]. *)
Definition numeric (v : value) : bool :=
  match v with
  | VInt _ | VFloat _ | VBool _ => true
  | _ => false
  end.

(** [item] is a dict whose [dia_mm] and [total_length] give the formula
    the value [w]. *)
Definition has_weight (item : value) (w : F64.float) : Prop :=
  exists it dia length,
    item = VDict it /\ Dict.get (lit "dia_mm") it = Some dia /\
    Dict.get (lit "total_length") it = Some length /\
    weight dia length = inr w.

(** [item'] is a dict whose [weight_kg] is [w]. *)
Definition weight_stored (item' : value) (w : F64.float) : Prop :=
  exists it', item' = VDict it' /\
    Dict.get (lit "weight_kg") it' = Some (VFloat w).

(** Two dicts with the same value at every key but [weight_kg]. *)
Definition same_but_weight (item item' : value) : Prop :=
  exists it it', item = VDict it /\ item' = VDict it' /\
    forall k, k <> lit "weight_kg" -> Dict.get k it' = Dict.get k it.

(** The floats of the worked example. *)
Definition f_17_6 : F64.float := F64.of_decimal false 176 (-1).
Definition f_13_29 : F64.float := F64.of_decimal false 1329 (-2).
Definition f_15_96 : F64.float := F64.of_decimal false 1596 (-2).

(** [round((144/162)*17.6*1.02, 2)] *)
Definition worked_example : F64.float :=
  F64.round2
    (F64.mul (F64.mul (F64.of_quotient false 144 162) f_17_6) wastage).

(** The placeholder of the handler, field by field. *)
Definition placeholder_shape (v : value) : Prop :=
  exists d note,
    v = VDict d /\
    Dict.get (lit "scale") d = Some (VStr (lit "Unknown")) /\
    Dict.get (lit "boq") d = Some (VList []) /\
    Dict.get (lit "bbs") d = Some (VList []) /\
    Dict.get (lit "assumptions") d = Some (VList []) /\
    Dict.get (lit "notes") d = Some (VList [VStr note]) /\ note <> [].

(** Texts of the examples. *)
Definition text_sorry : str := lit "sorry, I cannot process this".
Definition text_malformed : str := lit "{'scale': '1:100', 'boq': [}".

(** A fenced block whose object holds a brace and a fence inside a
    string. *)
Definition object_with_fence : str := lit "{'a': '} ```'}".
Definition text_fence_in_string : str :=
  open_fence ++ nl ++ object_with_fence ++ nl ++ close_fence.

(** A fenced block between prose with braces, followed by a second
    block. *)
Definition prose_before : str := lit "Result {draft}: ".
Definition fenced_body : str := lit "'scale': '1:100', 'bbs': [{'x': 1}]".
Definition prose_after : str :=
  lit " and {more} ```json {'scale': 'other'} ```".

(** A bare object between prose without braces. *)
Definition bare_before : str := lit "Here it is: ".
Definition bare_body : str := lit "'scale': '1:50', 'boq': []".
Definition bare_after : str := lit " - thanks".
Definition text_bare : str :=
  bare_before ++ lbrace :: bare_body ++ rbrace :: bare_after.

(** Two items of a schedule: a complete one and one without [dia_mm]
    and [total_length]. *)
Definition item_A : value :=
  VDict [(lit "mark", VStr (lit "A")); (lit "dia_mm", VInt 12);
         (lit "total_length", VFloat f_17_6);
         (lit "weight_kg", VFloat (F64.of_decimal false 132 (-2)))].
Definition item_A' : value :=
  VDict [(lit "mark", VStr (lit "A")); (lit "dia_mm", VInt 12);
         (lit "total_length", VFloat f_17_6);
         (lit "weight_kg", VFloat f_15_96)].
Definition item_B : value := VDict [(lit "mark", VStr (lit "B"))].

Definition text_one_bad_item : str :=
  lit "{'bbs': [{'mark': 'A', 'dia_mm': 12, 'total_length': 17.6, 'weight_kg': 1.32}, {'mark': 'B'}]}".
Definition text_good : str :=
  lit "{'scale': '1:100', 'boq': [{'component': 'F1'}, {'component': 'S1'}], 'bbs': [{'mark': 'A', 'dia_mm': 12, 'total_length': 17.6, 'weight_kg': 1.32}]}".
Definition data_good : value :=
  VDict [(lit "scale", VStr (lit "1:100"));
         (lit "boq", VList [VDict [(lit "component", VStr (lit "F1"))];
                            VDict [(lit "component", VStr (lit "S1"))]]);
         (lit "bbs", VList [item_A])].
Definition data_good' : value :=
  VDict [(lit "scale", VStr (lit "1:100"));
         (lit "boq", VList [VDict [(lit "component", VStr (lit "F1"))];
                            VDict [(lit "component", VStr (lit "S1"))]]);
         (lit "bbs", VList [item_A'])].

(** The text an exception carries. *)
Fixpoint raw (s : string) : str :=
  match s with
  | EmptyString => []
  | String a s' => N_of_ascii a :: raw s'
  end.

Definition exn_text (e : exn) : str :=
  match e with
  | KeyError key => key
  | ValueError msg | JSONDecodeError msg | TypeError msg
  | AttributeError msg | OverflowError msg | UnicodeEncodeError msg =>
      raw msg
  | RecursionError => raw "maximum recursion depth exceeded"
  end.

(** [item'] is [item] after an assignment to its [weight_kg]. *)
Definition weight_assigned (item item' : value) : Prop :=
  exists it w,
    item = VDict it /\
    item' = VDict (Dict.set (lit "weight_kg") (VFloat w) it).

(** An item with a mark and no [dia_mm], alone in a schedule. *)
Definition item_no_dia : Dict.dict :=
  [(lit "mark", VStr (lit "F1-M1")); (lit "total_length", VFloat f_17_6)].
Definition text_no_dia : str :=
  lit "{'bbs': [{'mark': 'F1-M1', 'total_length': 17.6}]}".

(** An item as the loop leaves it: a dict whose [dia_mm] and
    [total_length] are numbers and whose [weight_kg] is the float the
    formula gives for them. *)
Definition normalised (item : value) : Prop :=
  exists it dia length w,
    item = VDict it /\
    Dict.get (lit "dia_mm") it = Some dia /\
    Dict.get (lit "total_length") it = Some length /\
    numeric dia = true /\ numeric length = true /\
    weight dia length = inr w /\
    Dict.get (lit "weight_kg") it = Some (VFloat w).

(** Texts whose bbs is not a list. *)
Definition text_bbs_null : str := lit "{'scale': '1:20', 'bbs': null}".
Definition text_bbs_empty_dict : str := lit "{'scale': '1:20', 'bbs': {}}".
Definition text_no_bbs : str := lit "{'scale': '1:20'}".

(** The keys [format_boq_table] reads, in the order of its columns, and
    those of them it formats as numbers. *)
Definition boq_keys : list str :=
  [lit "component"; lit "type"; lit "length"; lit "breadth"; lit "depth";
   lit "quantity"; lit "unit"; lit "confidence"; lit "source"].
Definition boq_number_keys : list str :=
  [lit "length"; lit "breadth"; lit "depth"; lit "quantity"].

(** The same for [format_bbs_table]. *)
Definition bbs_keys : list str :=
  [lit "mark"; lit "member"; lit "dia_mm"; lit "count"; lit "length";
   lit "total_length"; lit "weight_kg"; lit "notes"].
Definition bbs_number_keys : list str :=
  [lit "length"; lit "total_length"; lit "weight_kg"].

(** [item] is a dict with every key of [keys], and with a number at
    every key of [numbers]. *)
Definition has_fields (keys numbers : list str) (item : value) : Prop :=
  exists it,
    item = VDict it /\
    Forall (fun k => Dict.get k it <> None) keys /\
    Forall (fun k => exists v, Dict.get k it = Some v /\ numeric v = true)
      numbers.

(** What [format_bbs_table] needs of an item beyond what the loop of
    [_parse_response] has checked: four more keys, and a [length] that
    can be formatted. *)
Definition rest_of_row (item : value) : Prop :=
  exists it length text,
    item = VDict it /\
    Dict.get (lit "mark") it <> None /\
    Dict.get (lit "member") it <> None /\
    Dict.get (lit "count") it <> None /\
    Dict.get (lit "notes") it <> None /\
    Dict.get (lit "length") it = Some length /\
    Builtins.format_2f length = inr text.

(** A table function for the examples; the theorems hold for every
    one. *)
Definition blank_table (data : list (list value)) (headers : list str) : str :=
  [].

(** The sample item of the prompt, as the loop leaves it. *)
Definition item_F1 : value :=
  VDict [(lit "mark", VStr (lit "F1-M1"));
         (lit "member", VStr (lit "Footing main"));
         (lit "dia_mm", VInt 12); (lit "count", VInt 8);
         (lit "length", VFloat (F64.of_decimal false 22 (-1)));
         (lit "total_length", VFloat f_17_6);
         (lit "weight_kg", VFloat f_15_96);
         (lit "notes", VStr (lit "12mm @ 200mm c/c"))].
Definition text_F1 : str :=
  lit "{'bbs': [{'mark': 'F1-M1', 'member': 'Footing main', 'dia_mm': 12, 'count': 8, 'length': 2.2, 'total_length': 17.6, 'weight_kg': 1.32, 'notes': '12mm @ 200mm c/c'}]}".

(** The first boq item of the prompt. *)
Definition boq_F1 : value :=
  VDict [(lit "component", VStr (lit "Foundation F1"));
         (lit "type", VStr (lit "PCC Bed"));
         (lit "length", VFloat (F64.of_decimal false 20 (-1)));
         (lit "breadth", VFloat (F64.of_decimal false 20 (-1)));
         (lit "depth", VFloat (F64.of_decimal false 15 (-2)));
         (lit "quantity", VFloat (F64.of_decimal false 6 (-1)));
         (lit "unit", VStr (lit "m3"));
         (lit "source", VStr (lit "Foundation detail"));
         (lit "confidence", VStr (lit "High"))].

(** [n] rounds of the waiting loop. *)
Fixpoint polls (n : nat) : list Analyzer.call :=
  match n with
  | O => []
  | S k => Analyzer.Sleep 2 :: Analyzer.GetFile :: polls k
  end.

(** A service whose file is PROCESSING at the upload and at the first
    [n - 1] calls of [get_file], then in the state [final]. *)
Definition service_after (n : nat) (final : string) (extra : list string)
           (text : str) : Analyzer.service :=
  match n with
  | O =>
      {| Analyzer.first_state := final; Analyzer.later_states := extra;
         Analyzer.response_text := text |}
  | S k =>
      {| Analyzer.first_state := "PROCESSING";
         Analyzer.later_states := repeat "PROCESSING"%string k ++ final :: extra;
         Analyzer.response_text := text |}
  end.

(** The key in use: [api_key or GEMINI_API_KEY]. *)
Definition key_in_use (api_key : option str) (GEMINI_API_KEY : str) : str :=
  match api_key with
  | Some (c :: k) => c :: k
  | _ => GEMINI_API_KEY
  end.

(** Texts and a path that hold U+D800, a surrogate with no partner. *)
Definition text_surrogate : str := text_sorry ++ [32%N; 55296%N].
Definition text_bad_item_surrogate : str := text_one_bad_item ++ [55296%N].
Definition path_surrogate : str := lit "plan" ++ [55296%N] ++ lit ".pdf".

(** How a call ends that ends as [_parse_response] does. *)
Definition outcome_of (r : result value) : Analyzer.outcome :=
  match r with
  | inr v => Analyzer.Returned v
  | inl e => Analyzer.Raised e
  end.

Ltac break_match :=
  match goal with
  | |- context [match ?x with _ => _ end] => destruct x eqn:?
  end.

(** * Properties *)

Unset Implicit Arguments.

(** ** The model on known values *)

(** [float('0.1')] is 0x1.999999999999ap-4. *)
Example float_of_0_1 :
  F64.of_decimal false 1 (-1) = S754_finite false 7205759403792794 (-56).
Proof. vm_compute; reflexivity. Qed.

(** The largest float, and the first decimal that rounds to infinity. *)
Example float_of_max :
  F64.of_decimal false 17976931348623157 292
  = S754_finite false 9007199254740991 971 /\
  F64.of_decimal false 17976931348623159 292 = S754_infinity false.
Proof. split; vm_compute; reflexivity. Qed.

(** [round(2.675, 2) == 2.67], [round(0.125, 2) == 0.12] and
    [round(0.375, 2) == 0.38]: the binary value is rounded, and a tie
    goes to the even digit. *)
Example round2_known :
  F64.round2 (F64.of_decimal false 2675 (-3)) = F64.of_decimal false 267 (-2) /\
  F64.round2 (F64.of_decimal false 125 (-3)) = F64.of_decimal false 12 (-2) /\
  F64.round2 (F64.of_decimal false 375 (-3)) = F64.of_decimal false 38 (-2).
Proof. repeat split; vm_compute; reflexivity. Qed.

(** [1 / 3] and [10**400 / 162]. *)
Example int_truediv_known :
  Py.int_truediv 1 3 = inr (S754_finite false 6004799503160661 (-54)) /\
  Py.int_truediv (10 ^ 400) 162
  = inl (OverflowError "integer division result too large for a float").
Proof. split; vm_compute; reflexivity. Qed.

(** [.*] runs to the last brace, [.*?] to the first that a fence
    follows. *)
Example search_known :
  option_map Re.whole (Re.search brace_re (lit "a {b} c } d"))
  = Some (lit "{b} c }") /\
  option_map Re.groups
    (Re.search fenced_re (lit "```json {'a': {}} ``` {} ```json {} ```"))
  = Some [lit "{'a': {}}"].
Proof. split; vm_compute; reflexivity. Qed.

(** A later duplicate of a key replaces the value and keeps the place;
    numbers with a fraction or an exponent are floats. *)
Example loads_known :
  Json.loads (lit "{'a': 1, 'b': [1.5e3, -2, true, null], 'a': 'x\n'}")
  = inr (VDict [(lit "a", VStr [120%N; 10%N]);
                (lit "b", VList [VFloat (F64.of_Z 1500); VInt (-2);
                                 VBool true; VNone])]) /\
  Json.loads (lit "{'a': 01}") = inl (JSONDecodeError "Expecting ',' delimiter") /\
  Json.loads (lit "{'a': [1,]}") = inl (JSONDecodeError "Expecting value").
Proof. repeat split; vm_compute; reflexivity. Qed.

(** ** Strings *)

Lemma str_eqb_eq (a b : str) : Str.eqb a b = true <-> a = b.
Proof.
  revert b; induction a as [|x a IH]; intros [|y b]; simpl; split;
    try congruence; try reflexivity.
  - intros H; apply andb_true_iff in H as [Hx Hab].
    apply N.eqb_eq in Hx; apply IH in Hab; congruence.
  - intros H; injection H as -> ->.
    rewrite N.eqb_refl; simpl; now apply IH.
Qed.

Lemma str_eqb_refl (a : str) : Str.eqb a a = true.
Proof. now apply str_eqb_eq. Qed.

Lemma str_eqb_neq (a b : str) : a <> b -> Str.eqb a b = false.
Proof.
  intros H; destruct (Str.eqb a b) eqn:E; [|reflexivity].
  apply str_eqb_eq in E; contradiction.
Qed.

Lemma str_eqb_false (a b : str) : Str.eqb a b = false -> a <> b.
Proof. intros E ->; rewrite str_eqb_refl in E; discriminate. Qed.

Lemma strip_app (p s : str) : strip p (p ++ s) = Some s.
Proof.
  induction p as [|x p IH]; simpl; [reflexivity|].
  now rewrite N.eqb_refl.
Qed.

Lemma strip_Some (p s r : str) : strip p s = Some r -> s = p ++ r.
Proof.
  revert s; induction p as [|x p IH]; intros [|y s]; simpl; try congruence.
  destruct (N.eqb x y) eqn:E; [|discriminate].
  apply N.eqb_eq in E; subst y; intros H; f_equal; now apply IH.
Qed.

Lemma strip_head_neq (x y : char) (p s : str) :
  x <> y -> strip (x :: p) (y :: s) = None.
Proof. intros H; simpl; apply N.eqb_neq in H; now rewrite H. Qed.

(** [find] returns the first place where the pattern occurs. *)
Lemma find_from_Some (p s : str) (i n : nat) :
  Str.find_from p s i = Some n ->
  exists a t, s = a ++ p ++ t /\ n = (i + List.length a)%nat /\
    forall a1 a2, a = a1 ++ a2 -> a2 <> [] -> strip p (a2 ++ p ++ t) = None.
Proof.
  revert i; induction s as [|c s IH]; intros i; simpl.
  - destruct (strip p []) as [l|] eqn:E; [|discriminate].
    intros H; injection H as <-.
    exists [], l; repeat split.
    + now apply strip_Some in E.
    + simpl; lia.
    + intros a1 a2 H; destruct a1, a2; simpl in H; congruence.
  - destruct (strip p (c :: s)) as [l|] eqn:E.
    + intros H; injection H as <-.
      exists [], l; repeat split.
      * now apply strip_Some in E.
      * simpl; lia.
      * intros a1 a2 H; destruct a1, a2; simpl in H; congruence.
    + intros H; apply IH in H as (a & t & -> & -> & Hfirst).
      exists (c :: a), t; repeat split.
      * simpl; lia.
      * intros [|c1 a1] a2 H Hne; simpl in H.
        -- subst a2; exact E.
        -- injection H as <- ->; now apply (Hfirst a1 a2).
Qed.

Lemma find_from_None (p s : str) (i : nat) :
  Str.find_from p s i = None -> forall a t, s <> a ++ p ++ t.
Proof.
  revert i; induction s as [|c s IH]; intros i; simpl.
  - destruct (strip p []) eqn:E; [discriminate|].
    intros _ a t H; destruct a; simpl in H.
    + rewrite H, strip_app in E; discriminate.
    + discriminate.
  - destruct (strip p (c :: s)) eqn:E; [discriminate|].
    intros H a t Heq; destruct a as [|c' a]; simpl in Heq.
    + rewrite Heq, strip_app in E; discriminate.
    + injection Heq as -> Heq; now apply (IH _ H a t).
Qed.

Lemma consumed_app (a b : str) : Re.consumed (a ++ b) b = a.
Proof.
  unfold Re.consumed; rewrite length_app.
  replace (List.length a + List.length b - List.length b)%nat
    with (List.length a) by lia.
  rewrite firstn_app, firstn_all, Nat.sub_diag; simpl; apply app_nil_r.
Qed.

Lemma consumed_span (c d : char) (a b : str) :
  Re.consumed (c :: a ++ d :: b) b = c :: a ++ [d].
Proof.
  replace (c :: a ++ d :: b) with ((c :: a ++ [d]) ++ b).
  - apply consumed_app.
  - simpl; now rewrite <- app_assoc.
Qed.

(** ** The matcher *)

Section MatcherFacts.
Variable R : Type.
Implicit Types (k : str -> option R) (cls : char -> bool).

(** A successful [c*] or [c*?] has consumed characters of the class and
    handed the rest to what follows. *)
Lemma star_greedy_sound cls s k r :
  Re.star_greedy cls s k = Some r ->
  exists a t, s = a ++ t /\ forallb cls a = true /\ k t = Some r.
Proof.
  induction s as [|c s IH]; simpl.
  - intros H; exists [], []; auto.
  - destruct (cls c) eqn:Hc.
    + destruct (Re.star_greedy cls s k) eqn:E.
      * intros H; injection H as <-.
        destruct (IH eq_refl) as (a & t & -> & Ha & Hk).
        exists (c :: a), t; simpl; rewrite Hc; auto.
      * intros H; exists [], (c :: s); auto.
    + intros H; exists [], (c :: s); auto.
Qed.

Lemma star_lazy_sound cls s k r :
  Re.star_lazy cls s k = Some r ->
  exists a t, s = a ++ t /\ forallb cls a = true /\ k t = Some r.
Proof.
  induction s as [|c s IH]; simpl.
  - destruct (k []) eqn:E; [|discriminate].
    intros H; injection H as <-; exists [], []; auto.
  - destruct (k (c :: s)) eqn:E.
    + intros H; injection H as <-; exists [], (c :: s); auto.
    + destruct (cls c) eqn:Hc; [|discriminate].
      intros H; destruct (IH H) as (a & t & -> & Ha & Hk).
      exists (c :: a), t; simpl; rewrite Hc; auto.
Qed.

(** [c*] takes a whole run of the class when what follows accepts the
    rest. *)
Lemma star_greedy_run cls a t k r :
  forallb cls a = true ->
  match t with [] => True | c :: _ => cls c = false end ->
  k t = Some r ->
  Re.star_greedy cls (a ++ t) k = Some r.
Proof.
  intros Ha Ht Hk; induction a as [|c a IH]; simpl in *.
  - destruct t as [|c t]; simpl; [exact Hk|now rewrite Ht].
  - apply andb_true_iff in Ha as [Hc Ha]; rewrite Hc, (IH Ha); reflexivity.
Qed.

(** [.*] backtracks to the last place that what follows accepts. *)
Lemma star_greedy_last a t k r :
  (forall t1 t2, t = t1 ++ t2 -> t1 <> [] -> k t2 = None) ->
  k t = Some r ->
  Re.star_greedy Re.dot (a ++ t) k = Some r.
Proof.
  intros Hlast Hk.
  assert (Ht : forall t2 t1, t = t1 ++ t2 -> t1 <> [] ->
               Re.star_greedy Re.dot t2 k = None).
  { induction t2 as [|c t2 IH]; intros t1 H Hne; simpl.
    - now apply (Hlast t1).
    - rewrite (IH (t1 ++ [c])).
      + now apply (Hlast t1).
      + now rewrite <- app_assoc.
      + intros E; now destruct t1. }
  induction a as [|c a IH]; simpl.
  - destruct t as [|c t]; simpl; [exact Hk|].
    now rewrite (Ht t [c]).
  - now rewrite IH.
Qed.

(** [.*?] stops at the first place that what follows accepts. *)
Lemma star_lazy_first a t k r :
  (forall a1 a2, a = a1 ++ a2 -> a2 <> [] -> k (a2 ++ t) = None) ->
  k t = Some r ->
  Re.star_lazy Re.dot (a ++ t) k = Some r.
Proof.
  intros Hfirst Hk; induction a as [|c a IH]; simpl.
  - destruct t; simpl; now rewrite Hk.
  - assert (H0 := Hfirst [] (c :: a) eq_refl ltac:(discriminate)).
    simpl in H0; rewrite H0.
    apply IH; intros a1 a2 -> Hne; now apply (Hfirst (c :: a1) a2).
Qed.

End MatcherFacts.

(** [re.search] returns the match at the first position that has one. *)
Lemma search_from_sound (r : Re.regex) (s : str) (i : nat) (m : Re.match_obj) :
  Re.search_from r i s = Some m ->
  exists a t, s = a ++ t /\ Re.match_at r (i + List.length a) t = Some m.
Proof.
  revert i; induction s as [|c s IH]; intros i; simpl.
  - destruct (Re.match_at r i []) eqn:E; [|discriminate].
    intros H; injection H as <-; exists [], []; simpl.
    now rewrite Nat.add_0_r.
  - destruct (Re.match_at r i (c :: s)) eqn:E.
    + intros H; injection H as <-; exists [], (c :: s); simpl.
      now rewrite Nat.add_0_r.
    + intros H; apply IH in H as (a & t & -> & H).
      exists (c :: a), t; simpl; split; [reflexivity|].
      now replace (i + S (List.length a))%nat with (S i + List.length a)%nat by lia.
Qed.

Lemma search_from_first (r : Re.regex) (a t : str) (i : nat) (m : Re.match_obj) :
  (forall a1 a2, a = a1 ++ a2 -> a2 <> [] ->
     Re.match_at r (i + List.length a1) (a2 ++ t) = None) ->
  Re.match_at r (i + List.length a) t = Some m ->
  Re.search_from r i (a ++ t) = Some m.
Proof.
  revert i; induction a as [|c a IH]; intros i Hfirst Hm; simpl in *.
  - rewrite Nat.add_0_r in Hm.
    destruct t; simpl; now rewrite Hm.
  - assert (H0 := Hfirst [] (c :: a) eq_refl ltac:(discriminate)).
    simpl in H0; rewrite Nat.add_0_r in H0; rewrite H0.
    apply IH.
    + intros a1 a2 -> Hne.
      replace (S i + List.length a1)%nat with (i + List.length (c :: a1))%nat
        by (simpl; lia).
      now apply Hfirst.
    + now replace (S i + List.length a)%nat with (i + S (List.length a))%nat by lia.
Qed.

(** ** The two patterns of [_parse_response] *)

(** [r'\{.*\}']: a match is a span from a [{] to a [}]. *)
Lemma match_at_brace_sound (i : nat) (s : str) (m : Re.match_obj) :
  Re.match_at brace_re i s = Some m ->
  exists b c, s = lbrace :: b ++ rbrace :: c /\
    Re.whole m = lbrace :: b ++ [rbrace].
Proof.
  unfold Re.match_at, brace_re; cbn [Re.rmatch].
  destruct (strip (lit "{") s) as [s1|] eqn:E1; [|discriminate].
  apply strip_Some in E1; subst s.
  intros H; apply star_greedy_sound in H as (a & t & -> & _ & H).
  destruct (strip (lit "}") t) as [s2|] eqn:E2; [|discriminate].
  apply strip_Some in E2; subst t.
  injection H as <-.
  exists a, s2; split; [reflexivity|apply consumed_span].
Qed.

Lemma match_at_brace_head (i : nat) (c : char) (s : str) :
  c <> lbrace -> Re.match_at brace_re i (c :: s) = None.
Proof.
  intros H; unfold Re.match_at, brace_re; cbn [Re.rmatch].
  change (lit "{") with [lbrace].
  rewrite strip_head_neq; [reflexivity|congruence].
Qed.

(** At a [{], the pattern runs to the last [}] of the text. *)
Lemma match_at_brace (i : nat) (mid post : str) :
  ~ In rbrace post ->
  Re.match_at brace_re i (lbrace :: mid ++ rbrace :: post)
  = Some {| Re.start := i; Re.whole := lbrace :: mid ++ [rbrace];
            Re.groups := [] |}.
Proof.
  intros Hpost; unfold Re.match_at, brace_re; cbn [Re.rmatch].
  change (lit "{") with [lbrace]; change (lit "}") with [rbrace].
  change (lbrace :: mid ++ rbrace :: post)
    with ([lbrace] ++ (mid ++ rbrace :: post)) at 1.
  rewrite strip_app.
  rewrite star_greedy_last
    with (r := {| Re.start := i; Re.whole := lbrace :: mid ++ [rbrace];
                  Re.groups := [] |}); [reflexivity| |].
  - intros t1 t2 H Hne.
    destruct t1 as [|c t1]; [contradiction|].
    simpl in H; injection H as _ ->.
    destruct t2 as [|c2 t2]; [reflexivity|].
    rewrite strip_head_neq; [reflexivity|].
    intros <-; apply Hpost, in_or_app; right; now left.
  - change (rbrace :: post) with ([rbrace] ++ post); rewrite strip_app.
    do 2 f_equal.
    change (lbrace :: mid ++ [rbrace] ++ post)
      with ((lbrace :: mid) ++ [rbrace] ++ post).
    rewrite app_assoc.
    change (lbrace :: mid ++ [rbrace]) with ((lbrace :: mid) ++ [rbrace]).
    apply consumed_app.
Qed.

Lemma search_brace_sound (s : str) (m : Re.match_obj) :
  Re.search brace_re s = Some m ->
  exists a b c, s = a ++ lbrace :: b ++ rbrace :: c /\
    Re.whole m = lbrace :: b ++ [rbrace].
Proof.
  intros H; apply search_from_sound in H as (a & t & -> & H).
  apply match_at_brace_sound in H as (b & c & -> & Hw); now exists a, b, c.
Qed.

(** [re.search(r'\{.*\}', text, re.DOTALL)] is the span from the first
    [{] to the last [}]. *)
Lemma search_brace (pre mid post : str) :
  ~ In lbrace pre -> ~ In rbrace post ->
  Re.search brace_re (pre ++ lbrace :: mid ++ rbrace :: post)
  = Some {| Re.start := List.length pre; Re.whole := lbrace :: mid ++ [rbrace];
            Re.groups := [] |}.
Proof.
  intros Hpre Hpost; unfold Re.search.
  apply search_from_first.
  - intros a1 [|c a2] -> Hne; [contradiction|].
    simpl; apply match_at_brace_head.
    intros ->; apply Hpre, in_or_app; right; now left.
  - now apply match_at_brace.
Qed.

Lemma match_at_fenced_unfold (i : nat) (s : str) :
  Re.match_at fenced_re i s =
  match strip open_fence s with
  | Some s1 =>
      Re.star_greedy Re.space s1
        (fun s2 =>
           match strip [lbrace] s2 with
           | Some s3 =>
               Re.star_lazy Re.dot s3
                 (fun s4 =>
                    match strip [rbrace] s4 with
                    | Some s5 => after_group i s s5 [Re.consumed s2 s5]
                    | None => None
                    end)
           | None => None
           end)
  | None => None
  end.
Proof. reflexivity. Qed.

(** A match of the fenced pattern: an opening fence, white space, a span
    from a [{] to a [}], white space and a closing fence; the group is
    the span. *)
Lemma match_at_fenced_sound (i : nat) (s : str) (m : Re.match_obj) :
  Re.match_at fenced_re i s = Some m ->
  exists ws body ws' post,
    s = open_fence ++ ws ++ lbrace :: body ++ rbrace :: ws' ++ close_fence ++ post
    /\ forallb Re.space ws = true /\ forallb Re.space ws' = true
    /\ Re.groups m = [lbrace :: body ++ [rbrace]].
Proof.
  rewrite match_at_fenced_unfold.
  destruct (strip open_fence s) as [s1|] eqn:E1; [|discriminate].
  apply strip_Some in E1.
  intros H; apply star_greedy_sound in H as (ws & s2 & -> & Hws & H).
  destruct (strip [lbrace] s2) as [s3|] eqn:E3; [|discriminate].
  apply strip_Some in E3.
  apply star_lazy_sound in H as (body & s4 & -> & _ & H).
  destruct (strip [rbrace] s4) as [s5|] eqn:E5; [|discriminate].
  apply strip_Some in E5.
  apply star_greedy_sound in H as (ws' & s6 & -> & Hws' & H).
  destruct (strip (lit "```") s6) as [s7|] eqn:E7; [|discriminate].
  apply strip_Some in E7.
  injection H as <-; subst.
  exists ws, body, ws', s7; repeat split; auto.
  simpl Re.groups; f_equal; apply consumed_span.
Qed.

Lemma space_backtick : Re.space backtick = false.
Proof. reflexivity. Qed.

Lemma space_rbrace : Re.space rbrace = false.
Proof. reflexivity. Qed.

Lemma space_lbrace : Re.space lbrace = false.
Proof. reflexivity. Qed.

Lemma skip_space_run (w y : str) :
  forallb Re.space w = true ->
  skip_space (w ++ close_fence ++ y) = close_fence ++ y.
Proof.
  induction w as [|c w IH]; intros H; [reflexivity|].
  simpl in H; apply andb_true_iff in H as [Hc Hw].
  change (skip_space ((c :: w) ++ close_fence ++ y))
    with (if Re.space c then skip_space (w ++ close_fence ++ y)
          else c :: w ++ close_fence ++ y).
  rewrite Hc; now apply IH.
Qed.

Lemma closes_early_intro (x w y : str) :
  forallb Re.space w = true ->
  closes_early (x ++ rbrace :: w ++ close_fence ++ y) = true.
Proof.
  intros Hw; induction x as [|c x IH].
  - change (closes_early ([] ++ rbrace :: w ++ close_fence ++ y))
      with ((rbrace =? rbrace)%N && fence_follows (w ++ close_fence ++ y)
            || closes_early (w ++ close_fence ++ y)).
    unfold fence_follows; rewrite (skip_space_run w y Hw), strip_app.
    now rewrite N.eqb_refl.
  - change (closes_early ((c :: x) ++ rbrace :: w ++ close_fence ++ y))
      with ((c =? rbrace)%N
            && fence_follows (x ++ rbrace :: w ++ close_fence ++ y)
            || closes_early (x ++ rbrace :: w ++ close_fence ++ y)).
    rewrite IH; apply orb_true_r.
Qed.

(** White space and a closing fence that begin in a text ending at a
    [}] lie before that brace. *)
Lemma no_fence_after (a rest w t : str) :
  forallb Re.space w = true ->
  a ++ rbrace :: rest = w ++ close_fence ++ t ->
  exists y, a = w ++ close_fence ++ y.
Proof.
  intros Hw E.
  apply app_eq_app in E as (l2 & [[-> E]|[-> E]]).
  - (* the white space stops inside [a] *)
    destruct l2 as [|x [|y [|z l2]]]; simpl in E; try discriminate.
    injection E as <- <- <- _.
    now exists l2.
  - (* the white space runs over the brace *)
    destruct l2 as [|x l2]; simpl in E; [discriminate|].
    injection E as <- _.
    rewrite forallb_app in Hw; apply andb_true_iff in Hw as [_ Hw].
    change (forallb Re.space (rbrace :: l2))
      with (Re.space rbrace && forallb Re.space l2) in Hw.
    rewrite space_rbrace in Hw; discriminate.
Qed.

(** When no [}] between the braces is followed by white space and a
    fence, the lazy [.*?] of the group ends at the closing brace of the
    fenced object. *)
Lemma match_at_fenced (i : nat) (ws body ws' post : str) :
  forallb Re.space ws = true -> forallb Re.space ws' = true ->
  closes_early body = false ->
  Re.match_at fenced_re i
    (open_fence ++ ws ++ lbrace :: body ++ rbrace :: ws' ++ close_fence ++ post)
  = Some {| Re.start := i;
            Re.whole := open_fence ++ ws ++ lbrace :: body ++ rbrace
                          :: ws' ++ close_fence;
            Re.groups := [lbrace :: body ++ [rbrace]] |}.
Proof.
  intros Hws Hws' Hbody.
  rewrite match_at_fenced_unfold, strip_app.
  apply star_greedy_run; [exact Hws|exact space_lbrace|].
  change (lbrace :: body ++ rbrace :: ws' ++ close_fence ++ post)
    with ([lbrace] ++ body ++ rbrace :: ws' ++ close_fence ++ post) at 1.
  rewrite strip_app.
  apply star_lazy_first.
  - intros a1 [|c a2] -> Hne; [contradiction|].
    destruct (strip [rbrace] ((c :: a2) ++ rbrace :: ws' ++ close_fence ++ post))
      as [s5|] eqn:E5; [|reflexivity].
    apply strip_Some in E5; simpl in E5; injection E5 as -> <-.
    unfold after_group.
    match goal with |- ?g = None => destruct g as [r|] eqn:E end;
      [exfalso|reflexivity].
    apply star_greedy_sound in E as (w & t & E & Hw & H).
    destruct (strip (lit "```") t) as [s7|] eqn:E7; [|discriminate].
    apply strip_Some in E7; subst t.
    apply no_fence_after in E as (y & ->); [|exact Hw].
    rewrite (closes_early_intro a1 w y Hw) in Hbody; discriminate.
  - change (rbrace :: ws' ++ close_fence ++ post)
      with ([rbrace] ++ ws' ++ close_fence ++ post).
    rewrite strip_app; unfold after_group.
    apply star_greedy_run; [exact Hws'|exact space_backtick|].
    change (lit "```") with close_fence; rewrite strip_app.
    f_equal; f_equal.
    + replace (open_fence ++ ws ++ lbrace :: body ++ [rbrace] ++ ws' ++ close_fence ++ post)
        with ((open_fence ++ ws ++ lbrace :: body ++ rbrace :: ws' ++ close_fence) ++ post).
      * apply consumed_app.
      * repeat (rewrite <- ?app_assoc; simpl); reflexivity.
    + f_equal; apply consumed_span.
Qed.

(** ** Dicts *)

Lemma get_set_same (k : str) (v : value) (d : Dict.dict) :
  Dict.get k (Dict.set k v d) = Some v.
Proof.
  induction d as [|[k' v'] d IH]; simpl.
  - now rewrite str_eqb_refl.
  - destruct (Str.eqb k k') eqn:E; simpl; rewrite E; auto.
Qed.

Lemma get_set_other (k k' : str) (v : value) (d : Dict.dict) :
  k' <> k -> Dict.get k' (Dict.set k v d) = Dict.get k' d.
Proof.
  intros Hne; induction d as [|[k0 v0] d IH]; simpl.
  - now rewrite str_eqb_neq.
  - destruct (Str.eqb k k0) eqn:E; simpl.
    + apply str_eqb_eq in E; subst k0.
      now rewrite (str_eqb_neq _ _ Hne).
    + now rewrite IH.
Qed.

Lemma set_set (k : str) (v v' : value) (d : Dict.dict) :
  Dict.set k v' (Dict.set k v d) = Dict.set k v' d.
Proof.
  induction d as [|[k0 v0] d IH]; simpl.
  - now rewrite str_eqb_refl.
  - destruct (Str.eqb k k0) eqn:E; simpl; rewrite E; [reflexivity|].
    now rewrite IH.
Qed.

(** An assignment to a key that is there keeps the keys and their order. *)
Lemma keys_set_present (k : str) (v v0 : value) (d : Dict.dict) :
  Dict.get k d = Some v0 -> Dict.keys (Dict.set k v d) = Dict.keys d.
Proof.
  unfold Dict.keys; induction d as [|[k1 v1] d IH]; simpl; [discriminate|].
  destruct (Str.eqb k k1) eqn:E; simpl; [reflexivity|].
  intros H; now rewrite IH.
Qed.

(** ** [mapM]: the loop stops at the first item that raises *)

Lemma mapM_inr {A B} (f : A -> result B) (l : list A) (l' : list B) :
  mapM f l = inr l' <-> Forall2 (fun a b => f a = inr b) l l'.
Proof.
  revert l'; induction l as [|a l IH]; intros l'; simpl.
  - split.
    + intros [= <-]; constructor.
    + intros H; inversion H; reflexivity.
  - split.
    + destruct (f a) as [e|b] eqn:Ea; simpl; [discriminate|].
      destruct (mapM f l) as [e|bs] eqn:El; simpl; [discriminate|].
      intros [= <-]; constructor; [exact Ea|now apply IH].
    + intros H; inversion H as [|a0 b l0 bs Ha Hl]; subst.
      rewrite Ha; simpl.
      apply IH in Hl; rewrite Hl; reflexivity.
Qed.

Lemma mapM_inl {A B} (f : A -> result B) (l : list A) (a : A) (e : exn) :
  In a l -> f a = inl e -> exists e', mapM f l = inl e'.
Proof.
  induction l as [|x l IH]; simpl; [contradiction|].
  intros [->|Hin] Ha.
  - rewrite Ha; simpl; eauto.
  - destruct (f x) as [e1|b]; simpl; [eauto|].
    destruct (IH Hin Ha) as (e' & ->); simpl; eauto.
Qed.

(** ** The loop body and the loop *)

(** An item the body accepts is a dict with both fields for which the
    formula has a value; the body then stores that value. *)
Lemma recalculate_item_inr (item item' : value) :
  recalculate_item item = inr item' <->
  exists it dia length w,
    item = VDict it /\ Dict.get (lit "dia_mm") it = Some dia /\
    Dict.get (lit "total_length") it = Some length /\ weight dia length = inr w /\
    item' = VDict (Dict.set (lit "weight_kg") (VFloat w) it).
Proof.
  unfold recalculate_item; split.
  - destruct item as [| | | | |l|it]; simpl; try discriminate.
    destruct (Dict.get (lit "dia_mm") it) as [dia|] eqn:Ed; simpl; [|discriminate].
    destruct (Dict.get (lit "total_length") it) as [len|] eqn:El; simpl; [|discriminate].
    destruct (weight dia len) as [e|w] eqn:Ew; simpl; [discriminate|].
    intros [= <-]; exists it, dia, len, w; auto.
  - intros (it & dia & len & w & -> & Hd & Hl & Hw & ->); simpl.
    rewrite Hd; simpl; rewrite Hl; simpl; rewrite Hw; reflexivity.
Qed.

Lemma recalculate_item_again (item item' : value) :
  recalculate_item item = inr item' -> recalculate_item item' = inr item'.
Proof.
  intros H; apply recalculate_item_inr in H
    as (it & dia & len & w & -> & Hd & Hl & Hw & ->).
  apply recalculate_item_inr.
  exists (Dict.set (lit "weight_kg") (VFloat w) it), dia, len, w; repeat split.
  - rewrite get_set_other; [exact Hd|now apply str_eqb_false].
  - rewrite get_set_other; [exact Hl|now apply str_eqb_false].
  - exact Hw.
  - now rewrite set_set.
Qed.

Lemma recalculate_inr (data data' : value) :
  recalculate data = inr data' <-> recalculated data data'.
Proof.
  split.
  - destruct data as [| | | | | |d]; simpl; try discriminate.
    destruct (Dict.get (lit "bbs") d) as [bbs|] eqn:Eb.
    + destruct bbs as [| | | |s|l|kv]; simpl; try discriminate.
      * destruct s as [|c s]; simpl.
        -- intros [= <-]; eapply rec_empty; eauto.
        -- discriminate.
      * destruct (mapM recalculate_item l) as [e|l'] eqn:El; simpl;
          [discriminate|].
        intros [= <-]; apply rec_list with (l := l); [exact Eb|].
        now apply (proj1 (mapM_inr recalculate_item l l')).
      * destruct kv as [|[k v] kv]; simpl.
        -- intros [= <-]; eapply rec_empty; eauto.
        -- discriminate.
    + intros [= <-]; now apply rec_no_bbs.
  - intros H; destruct H as [d H|d l l' H Hl|d bbs H [->| ->]]; simpl;
      rewrite H; simpl; try reflexivity.
    apply (proj2 (mapM_inr recalculate_item l l')) in Hl.
    rewrite Hl; reflexivity.
Qed.

(** ** The decoder consumes text, and its fuel is enough *)

Lemma strip_length (p s r : str) :
  strip p s = Some r -> List.length s = (List.length p + List.length r)%nat.
Proof. intros H; apply strip_Some in H; subst; apply length_app. Qed.

Lemma strip_shorter (p s r : str) :
  (0 <? List.length p)%nat = true -> strip p s = Some r ->
  (List.length r < List.length s)%nat.
Proof.
  intros Hp H; apply strip_length in H; apply Nat.ltb_lt in Hp; lia.
Qed.

Lemma skip_ws_length (s : str) :
  (List.length (Json.skip_ws s) <= List.length s)%nat.
Proof.
  induction s as [|c s IH]; simpl; [lia|].
  destruct (Json.ws c); simpl; lia.
Qed.

Lemma skip_ws_cons (s r : str) (c : char) :
  Json.skip_ws s = c :: r -> (List.length r < List.length s)%nat.
Proof.
  intros H; pose proof (skip_ws_length s) as L; rewrite H in L; simpl in L; lia.
Qed.

Lemma scanstring_shorter (n : nat) :
  forall s acc k r, (List.length s <= n)%nat ->
    Json.scanstring s acc = inr (k, r) -> (List.length r < List.length s)%nat.
Proof.
  induction n as [|n IH]; intros s acc k r Hn; destruct s as [|c s];
    simpl in Hn; cbn [Json.scanstring]; try discriminate; try lia.
  repeat break_match; try discriminate;
    match goal with
    | |- ret _ = inr _ -> _ => intros [= <- <-]; simpl; lia
    | |- _ =>
        intros H; apply IH in H;
        [simpl in H |- *; lia | subst; simpl in Hn |- *; lia]
    end.
Qed.

Lemma decode_uXXXX_error (a b c d : char) (e : exn) :
  Json.decode_uXXXX a b c d = inl e -> e <> RecursionError.
Proof.
  unfold Json.decode_uXXXX.
  destruct (Json.hexdigit a), (Json.hexdigit b), (Json.hexdigit c),
    (Json.hexdigit d); try discriminate; intros [= <-]; discriminate.
Qed.

Lemma scanstring_no_recursion_error (n : nat) :
  forall s acc, (List.length s <= n)%nat ->
    Json.scanstring s acc <> inl RecursionError.
Proof.
  induction n as [|n IH]; intros s acc Hn; destruct s as [|c s];
    simpl in Hn; cbn [Json.scanstring]; try discriminate; try lia.
  repeat break_match; try discriminate;
    try solve [ apply IH; subst; simpl in *; lia ];
    match goal with
    | H : Json.decode_uXXXX _ _ _ _ = inl _ |- _ =>
        apply decode_uXXXX_error in H; congruence
    end.
Qed.

Lemma scanstring_error (s acc : str) (e : exn) :
  Json.scanstring s acc = inl e -> inl e <> @inl exn (value * str) RecursionError.
Proof.
  intros H [= ->].
  exact (scanstring_no_recursion_error (List.length s) s acc (le_n _) H).
Qed.

Lemma digits_length (s : str) :
  forall n len n' len' r, Json.digits s n len = (n', len', r) ->
    (List.length r <= List.length s)%nat.
Proof.
  induction s as [|c s IH]; intros n len n' len' r; simpl.
  - intros [= _ _ <-]; simpl; lia.
  - destruct (Json.digit c).
    + intros H; apply IH in H; lia.
    + intros [= _ _ <-]; simpl; lia.
Qed.

Lemma integer_part_shorter (s r : str) (neg : bool) (n : N) :
  Json.integer_part s = Some (neg, n, r) ->
  (List.length r < List.length s)%nat.
Proof.
  unfold Json.integer_part.
  destruct s as [|c s]; [discriminate|].
  destruct (c =? Json.ch "-")%N.
  - destruct s as [|c1 s]; [discriminate|].
    destruct (c1 =? Json.ch "0")%N; [intros [= _ _ <-]; simpl; lia|].
    destruct (Json.digit c1); [|discriminate].
    destruct (Json.digits s n0 1) as [[n1 l1] s3] eqn:E.
    intros [= _ _ <-]; apply digits_length in E; simpl; lia.
  - destruct (c =? Json.ch "0")%N; [intros [= _ _ <-]; simpl; lia|].
    destruct (Json.digit c); [|discriminate].
    destruct (Json.digits s n0 1) as [[n1 l1] s3] eqn:E.
    intros [= _ _ <-]; apply digits_length in E; simpl; lia.
Qed.

Lemma frac_part_length (m m' : N) (s r : str) (k : nat) :
  Json.frac_part m s = Some (m', k, r) ->
  (List.length r <= List.length s)%nat.
Proof.
  unfold Json.frac_part; destruct s as [|c s]; [discriminate|].
  destruct (c =? Json.ch ".")%N; [|discriminate].
  destruct (Json.digits s m 0) as [[m1 [|k1]] s2] eqn:E; [discriminate|].
  intros [= _ _ <-]; apply digits_length in E; simpl; lia.
Qed.

Lemma exp_part_length (s r : str) (e : Z) :
  Json.exp_part s = Some (e, r) -> (List.length r <= List.length s)%nat.
Proof.
  unfold Json.exp_part; destruct s as [|c s]; [discriminate|].
  destruct ((c =? Json.ch "e") || (c =? Json.ch "E"))%N; [|discriminate].
  destruct s as [|g s].
  - simpl; discriminate.
  - destruct (g =? Json.ch "-")%N; [|destruct (g =? Json.ch "+")%N].
    + destruct (Json.digits s 0 0) as [[e1 [|k1]] s3] eqn:E; [discriminate|].
      intros [= _ <-]; apply digits_length in E; simpl; lia.
    + destruct (Json.digits s 0 0) as [[e1 [|k1]] s3] eqn:E; [discriminate|].
      intros [= _ <-]; apply digits_length in E; simpl; lia.
    + destruct (Json.digits (g :: s) 0 0) as [[e1 [|k1]] s3] eqn:E;
        [discriminate|].
      intros [= _ <-]; apply digits_length in E; simpl in *; lia.
Qed.

Lemma match_number_shorter (s r : str) (v : value) :
  Json.match_number s = Some (v, r) -> (List.length r < List.length s)%nat.
Proof.
  unfold Json.match_number.
  destruct (Json.integer_part s) as [[[neg n] s1]|] eqn:Ei; [|discriminate].
  apply integer_part_shorter in Ei.
  destruct (Json.frac_part n s1) as [[[m k] s2]|] eqn:Ef.
  - apply frac_part_length in Ef.
    destruct (Json.exp_part s2) as [[e s3]|] eqn:Ee.
    + apply exp_part_length in Ee; simpl; intros [= _ <-]; lia.
    + simpl; intros [= _ <-]; lia.
  - destruct (Json.exp_part s1) as [[e s3]|] eqn:Ee.
    + apply exp_part_length in Ee; simpl; intros [= _ <-]; lia.
    + simpl; intros [= _ <-]; lia.
Qed.

Lemma keyword_shorter (s r : str) (v : value) :
  Json.keyword s = Some (v, r) -> (List.length r < List.length s)%nat.
Proof.
  unfold Json.keyword.
  repeat break_match; try discriminate; intros [= _ <-];
    match goal with H : strip _ _ = Some _ |- _ =>
      apply (fun Hp => strip_shorter _ _ _ Hp H); reflexivity end.
Qed.

Lemma constant_shorter (s r : str) (v : value) :
  Json.constant s = Some (v, r) -> (List.length r < List.length s)%nat.
Proof.
  unfold Json.constant.
  repeat break_match; try discriminate; intros [= _ <-];
    match goal with H : strip _ _ = Some _ |- _ =>
      apply (fun Hp => strip_shorter _ _ _ Hp H); reflexivity end.
Qed.

Lemma scan_progress (fuel : nat) :
  (forall s v r, Json.scan_once fuel s = inr (v, r) ->
     (List.length r < List.length s)%nat) /\
  (forall s p v r, Json.object_loop fuel s p = inr (v, r) ->
     (List.length r < List.length s)%nat) /\
  (forall s a v r, Json.array_loop fuel s a = inr (v, r) ->
     (List.length r < List.length s)%nat).
Proof.
  induction fuel as [|fuel (IHs & IHo & IHa)];
    [repeat split; intros; discriminate|].
  repeat split.
  - intros s v r; cbn [Json.scan_once].
    destruct s as [|c r0]; [discriminate|].
    destruct (c =? Json.dquote)%N.
    { destruct (Json.scanstring r0 []) as [e|[k r']] eqn:E; simpl;
        [discriminate|].
      intros [= _ <-].
      apply scanstring_shorter with (n := List.length r0) in E; simpl; lia. }
    destruct (c =? Json.ch "{")%N.
    { destruct (Json.skip_ws r0) as [|c1 r1] eqn:E; [discriminate|].
      apply skip_ws_cons in E.
      destruct (c1 =? Json.ch "}")%N; [intros [= _ <-]; simpl; lia|].
      destruct (c1 =? Json.dquote)%N; [|discriminate].
      intros H; apply IHo in H; simpl; lia. }
    destruct (c =? Json.ch "[")%N.
    { pose proof (skip_ws_length r0) as L.
      destruct (Json.skip_ws r0) as [|c1 r1] eqn:E.
      - intros H; apply IHa in H; simpl in H; lia.
      - destruct (c1 =? Json.ch "]")%N.
        + intros [= _ <-]; simpl in *; lia.
        + intros H; apply IHa in H; simpl in *; lia. }
    destruct (Json.keyword (c :: r0)) as [[v0 r1]|] eqn:Ek.
    { intros [= -> ->]; now apply keyword_shorter in Ek. }
    destruct (Json.match_number (c :: r0)) as [[v0 r1]|] eqn:En.
    { intros [= -> ->]; now apply match_number_shorter in En. }
    destruct (Json.constant (c :: r0)) as [[v0 r1]|] eqn:Ec;
      [|discriminate].
    intros [= -> ->]; now apply constant_shorter in Ec.
  - intros s p v r; cbn [Json.object_loop].
    destruct (Json.scanstring s []) as [e|[key s1]] eqn:E; simpl;
      [discriminate|].
    apply scanstring_shorter with (n := List.length s) in E; [|lia].
    pose proof (skip_ws_length s1) as L1.
    destruct (Json.skip_ws s1) as [|c s2]; [discriminate|].
    destruct (c =? Json.ch ":")%N; [|discriminate].
    pose proof (skip_ws_length s2) as L2.
    destruct (Json.scan_once fuel (Json.skip_ws s2)) as [e|[v1 s3]] eqn:Es;
      simpl; [discriminate|].
    apply IHs in Es.
    pose proof (skip_ws_length s3) as L3.
    destruct (Json.skip_ws s3) as [|c' s4]; [discriminate|].
    destruct (c' =? Json.ch "}")%N; [intros [= _ <-]; simpl in *; lia|].
    destruct (c' =? Json.ch ",")%N; [|discriminate].
    pose proof (skip_ws_length s4) as L4.
    destruct (Json.skip_ws s4) as [|q s5]; [discriminate|].
    destruct (q =? Json.dquote)%N; [|discriminate].
    intros H; apply IHo in H; simpl in *; lia.
  - intros s a v r; cbn [Json.array_loop].
    destruct (Json.scan_once fuel s) as [e|[v1 s1]] eqn:Es; simpl;
      [discriminate|].
    apply IHs in Es.
    pose proof (skip_ws_length s1) as L1.
    destruct (Json.skip_ws s1) as [|c s2]; [discriminate|].
    destruct (c =? Json.ch "]")%N; [intros [= _ <-]; simpl in *; lia|].
    destruct (c =? Json.ch ",")%N; [|discriminate].
    pose proof (skip_ws_length s2) as L2.
    intros H; apply IHa in H; simpl in *; lia.
Qed.

(** With fuel for twice the length of the text, the decoder does not run
    out of it. *)
Lemma scan_fuel_enough (fuel : nat) :
  (forall s, (2 * List.length s + 1 <= fuel)%nat ->
     forall x, Json.scan_once fuel s = x -> x <> inl RecursionError) /\
  (forall s p, (2 * List.length s + 2 <= fuel)%nat ->
     forall x, Json.object_loop fuel s p = x -> x <> inl RecursionError) /\
  (forall s a, (2 * List.length s + 2 <= fuel)%nat ->
     forall x, Json.array_loop fuel s a = x -> x <> inl RecursionError).
Proof.
  induction fuel as [|fuel (IHs & IHo & IHa)];
    [repeat split; intros; lia|].
  repeat split.
  - intros s Hf x <-; cbn [Json.scan_once].
    destruct s as [|c r0]; [discriminate|]; simpl in Hf.
    destruct (c =? Json.dquote)%N.
    { destruct (Json.scanstring r0 []) as [e|[k r']] eqn:E; simpl;
        [|discriminate].
      exact (scanstring_error _ _ _ E). }
    destruct (c =? Json.ch "{")%N.
    { destruct (Json.skip_ws r0) as [|c1 r1] eqn:E; [discriminate|].
      apply skip_ws_cons in E.
      destruct (c1 =? Json.ch "}")%N; [discriminate|].
      destruct (c1 =? Json.dquote)%N; [|discriminate].
      apply (IHo r1 []); [lia|reflexivity]. }
    destruct (c =? Json.ch "[")%N.
    { pose proof (skip_ws_length r0) as L.
      destruct (Json.skip_ws r0) as [|c1 r1] eqn:E.
      - apply (IHa [] []); [simpl; lia|reflexivity].
      - destruct (c1 =? Json.ch "]")%N; [discriminate|].
        apply (IHa (c1 :: r1) []); [simpl in *; lia|reflexivity]. }
    destruct (Json.keyword (c :: r0)) as [[v0 r1]|]; [discriminate|].
    destruct (Json.match_number (c :: r0)) as [[v0 r1]|]; [discriminate|].
    destruct (Json.constant (c :: r0)) as [[v0 r1]|]; discriminate.
  - intros s p Hf x <-; cbn [Json.object_loop].
    destruct (Json.scanstring s []) as [e|[key s1]] eqn:E; simpl.
    { exact (scanstring_error _ _ _ E). }
    apply scanstring_shorter with (n := List.length s) in E; [|lia].
    pose proof (skip_ws_length s1) as L1.
    destruct (Json.skip_ws s1) as [|c s2]; [discriminate|].
    destruct (c =? Json.ch ":")%N; [|discriminate].
    pose proof (skip_ws_length s2) as L2.
    destruct (Json.scan_once fuel (Json.skip_ws s2)) as [e|[v1 s3]] eqn:Es;
      simpl.
    { apply (IHs (Json.skip_ws s2)); [simpl in *; lia|exact Es]. }
    apply (proj1 (scan_progress fuel)) in Es.
    pose proof (skip_ws_length s3) as L3.
    destruct (Json.skip_ws s3) as [|c' s4]; [discriminate|].
    destruct (c' =? Json.ch "}")%N; [discriminate|].
    destruct (c' =? Json.ch ",")%N; [|discriminate].
    pose proof (skip_ws_length s4) as L4.
    destruct (Json.skip_ws s4) as [|q s5]; [discriminate|].
    destruct (q =? Json.dquote)%N; [|discriminate].
    eapply (IHo s5); [simpl in *; lia|reflexivity].
  - intros s a Hf x <-; cbn [Json.array_loop].
    destruct (Json.scan_once fuel s) as [e|[v1 s1]] eqn:Es; simpl.
    { apply (IHs s); [lia|exact Es]. }
    apply (proj1 (scan_progress fuel)) in Es.
    pose proof (skip_ws_length s1) as L1.
    destruct (Json.skip_ws s1) as [|c s2]; [discriminate|].
    destruct (c =? Json.ch "]")%N; [discriminate|].
    destruct (c =? Json.ch ",")%N; [|discriminate].
    pose proof (skip_ws_length s2) as L2.
    eapply (IHa (Json.skip_ws s2)); [simpl in *; lia|reflexivity].
Qed.

(** [json.loads] never stops for lack of fuel. *)
Lemma loads_fuel_enough (s : str) : Json.loads s <> inl RecursionError.
Proof.
  unfold Json.loads.
  assert (H : Json.decode (2 * List.length s + 2) s <> inl RecursionError).
  { unfold Json.decode.
    pose proof (skip_ws_length s) as L.
    destruct (Json.scan_once (2 * List.length s + 2) (Json.skip_ws s))
      as [e|[obj rest]] eqn:E; simpl.
    - apply (proj1 (scan_fuel_enough _) (Json.skip_ws s)) in E; [|lia].
      intros [= ->]; now apply E.
    - destruct (Json.skip_ws rest); discriminate. }
  destruct s as [|c s]; [exact H|].
  destruct c as [|p]; [exact H|].
  repeat (destruct p as [p|p|]; try exact H); discriminate.
Qed.

(** ** What the decoder builds *)

Lemma object_loop_dict (fuel : nat) :
  forall s p v r, Json.object_loop fuel s p = inr (v, r) ->
    exists d, v = VDict d.
Proof.
  induction fuel as [|fuel IH]; intros s p v r; [discriminate|].
  cbn [Json.object_loop].
  destruct (Json.scanstring s []) as [e|[key s1]]; simpl; [discriminate|].
  destruct (Json.skip_ws s1) as [|c s2]; [discriminate|].
  destruct (c =? Json.ch ":")%N; [|discriminate].
  destruct (Json.scan_once fuel (Json.skip_ws s2)) as [e|[v1 s3]]; simpl;
    [discriminate|].
  destruct (Json.skip_ws s3) as [|c' s4]; [discriminate|].
  destruct (c' =? Json.ch "}")%N; [intros [= <- _]; eauto|].
  destruct (c' =? Json.ch ",")%N; [|discriminate].
  destruct (Json.skip_ws s4) as [|q s5]; [discriminate|].
  destruct (q =? Json.dquote)%N; [|discriminate].
  apply IH.
Qed.

(** A text that begins with [{] decodes to a dict or not at all. *)
Lemma loads_object (s : str) (data : value) :
  Json.loads (lbrace :: s) = inr data -> exists d, data = VDict d.
Proof.
  unfold Json.loads.
  change (match lbrace :: s with
          | 65279%N :: _ => raise (JSONDecodeError "Unexpected UTF-8 BOM")
          | _ => Json.decode (2 * List.length (lbrace :: s) + 2) (lbrace :: s)
          end)
    with (Json.decode (2 * List.length (lbrace :: s) + 2) (lbrace :: s)).
  unfold Json.decode.
  change (Json.skip_ws (lbrace :: s)) with (lbrace :: s).
  destruct (Json.scan_once (2 * List.length (lbrace :: s) + 2) (lbrace :: s))
    as [e|[obj rest]] eqn:E; simpl; [discriminate|].
  destruct (Json.skip_ws rest); [|discriminate].
  intros [= <-].
  replace (2 * List.length (lbrace :: s) + 2)%nat
    with (S (2 * List.length (lbrace :: s) + 1))%nat in E by lia.
  cbn [Json.scan_once] in E.
  change (lbrace =? Json.dquote)%N with false in E.
  change (lbrace =? Json.ch "{")%N with true in E.
  cbv iota in E.
  destruct (Json.skip_ws s) as [|c1 r1]; [discriminate|].
  destruct (c1 =? Json.ch "}")%N; [injection E as <- _; eauto|].
  destruct (c1 =? Json.dquote)%N; [|discriminate].
  now apply object_loop_dict in E.
Qed.

(** [JSONArray] returns the values in that order, after those it was
    given. *)
Lemma array_loop_order (fuel : nat) :
  forall s values v rest,
    Json.array_loop fuel s values = inr (v, rest) ->
    exists vs, v = VList (values ++ vs) /\ array_items fuel s vs rest.
Proof.
  induction fuel as [|fuel IH]; intros s values v rest; [discriminate|].
  cbn [Json.array_loop].
  destruct (Json.scan_once fuel s) as [e|[v1 s1]] eqn:Es; simpl;
    [discriminate|].
  destruct (Json.skip_ws s1) as [|c s2] eqn:E1; [discriminate|].
  destruct (c =? Json.ch "]")%N eqn:Ec.
  - intros [= <- <-]; apply N.eqb_eq in Ec; subst c.
    exists [v1]; split; [reflexivity|].
    now apply items_last with (s1 := s1).
  - destruct (c =? Json.ch ",")%N eqn:Ec'; [|discriminate].
    apply N.eqb_eq in Ec'; subst c.
    intros H; apply IH in H as (vs & -> & Hvs).
    exists (v1 :: vs); split.
    + now rewrite <- app_assoc.
    + now apply items_more with (s1 := s1) (s2 := s2).
Qed.

Lemma array_items_loop (fuel : nat) (s : str) (vs : list value) (rest : str) :
  array_items fuel s vs rest ->
  forall values,
    Json.array_loop fuel s values = inr (VList (values ++ vs), rest).
Proof.
  induction 1 as [fuel s v s1 rest Hs H1|fuel s v s1 s2 vs rest Hs H1 _ IH];
    intros values; cbn [Json.array_loop]; rewrite Hs; simpl; rewrite H1.
  - now rewrite N.eqb_refl.
  - change (Json.ch "," =? Json.ch "]")%N with false.
    rewrite N.eqb_refl, IH, <- app_assoc; reflexivity.
Qed.

(** ** Fenced blocks and brace spans *)

Lemma after_Some (p s r : str) :
  after p s = Some r -> exists a, s = a ++ p ++ r.
Proof.
  induction s as [|c s IH]; simpl.
  - destruct (strip p []) as [r0|] eqn:E; [|discriminate].
    intros [= ->]; apply strip_Some in E; now exists [].
  - destruct (strip p (c :: s)) as [r0|] eqn:E.
    + intros [= ->]; apply strip_Some in E; now exists [].
    + intros H; destruct (IH H) as (a & ->); now exists (c :: a).
Qed.

(** What is left after the first occurrence holds what is left after any
    occurrence. *)
Lemma after_occurs (p a t : str) :
  exists r x, after p (a ++ p ++ t) = Some r /\ r = x ++ t.
Proof.
  induction a as [|c a IH].
  - simpl app.
    assert (E : strip p (p ++ t) = Some t) by apply strip_app.
    exists t, []; split; [|reflexivity].
    destruct (p ++ t); simpl; simpl in E; now rewrite E.
  - change ((c :: a) ++ p ++ t) with (c :: (a ++ p ++ t)); simpl.
    destruct (strip p (c :: a ++ p ++ t)) as [r|] eqn:E.
    + exists r; apply strip_Some in E.
      change (c :: a ++ p ++ t) with ((c :: a) ++ p ++ t) in E.
      rewrite app_assoc in E.
      apply app_eq_app in E as (l & [[E1 E2]|[E1 E2]]).
      * exists l; auto.
      * apply (f_equal (@List.length _)) in E1.
        rewrite !length_app in E1; simpl in E1.
        assert (l = []) by (destruct l; [reflexivity|simpl in E1; lia]).
        subst l; exists []; auto.
    + exact IH.
Qed.

Lemma has_fenced_block_spec (text : str) :
  has_fenced_block text = true <->
  exists a b c, text = a ++ open_fence ++ b ++ close_fence ++ c.
Proof.
  unfold has_fenced_block; split.
  - destruct (after open_fence text) as [r|] eqn:E1; [|discriminate].
    destruct (after close_fence r) as [r'|] eqn:E2; [|discriminate].
    intros _; apply after_Some in E1 as (a & ->).
    apply after_Some in E2 as (b & ->); now exists a, b, r'.
  - intros (a & b & c & ->).
    destruct (after_occurs open_fence a (b ++ close_fence ++ c))
      as (r & x & -> & ->).
    rewrite app_assoc.
    destruct (after_occurs close_fence (x ++ b) c) as (r' & x' & -> & _).
    reflexivity.
Qed.

Lemma mem_In (c : char) (s : str) : Str.mem c s = true <-> In c s.
Proof.
  unfold Str.mem; rewrite existsb_exists; split.
  - intros (x & Hx & E); apply N.eqb_eq in E; now subst.
  - intros H; exists c; split; [exact H|apply N.eqb_refl].
Qed.

Lemma has_brace_span_spec (text : str) :
  has_brace_span text = true <->
  exists a b c, text = a ++ lbrace :: b ++ rbrace :: c.
Proof.
  unfold has_brace_span; split.
  - destruct (after [lbrace] text) as [r|] eqn:E1; [|discriminate].
    intros H; apply after_Some in E1 as (a & ->).
    apply mem_In, in_split in H as (b & c & ->); now exists a, b, c.
  - intros (a & b & c & ->).
    destruct (after_occurs [lbrace] a (b ++ rbrace :: c)) as (r & x & E & ->).
    simpl app in E; rewrite E.
    apply mem_In, in_or_app; right; apply in_or_app; right; now left.
Qed.

Lemma split_first (c : char) (s : str) :
  In c s -> exists pre post, s = pre ++ c :: post /\ ~ In c pre.
Proof.
  induction s as [|x s IH]; [contradiction|].
  destruct (N.eq_dec x c) as [->|Hne].
  - intros _; exists [], s; auto.
  - intros [E|H]; [contradiction|].
    destruct (IH H) as (pre & post & -> & Hpre).
    exists (x :: pre), post; split; [reflexivity|].
    intros [E|Hin]; auto.
Qed.

Lemma split_last (c : char) (s : str) :
  In c s -> exists pre post, s = pre ++ c :: post /\ ~ In c post.
Proof.
  intros H; apply (in_rev s) in H; apply split_first in H
    as (pre & post & E & Hpre).
  exists (rev post), (rev pre); split.
  - rewrite <- (rev_involutive s), E, rev_app_distr; simpl.
    now rewrite <- app_assoc.
  - now rewrite <- in_rev.
Qed.

(** A text with a brace span has one from its first [{] to its last
    [}]. *)
Lemma brace_span_extremes (text : str) :
  has_brace_span text = true ->
  exists pre mid post,
    text = pre ++ lbrace :: mid ++ rbrace :: post /\
    ~ In lbrace pre /\ ~ In rbrace post.
Proof.
  unfold has_brace_span.
  destruct (after [lbrace] text) as [r|] eqn:E; [|discriminate].
  intros H; apply mem_In in H.
  apply after_Some in E as (a & ->).
  destruct (split_first lbrace (a ++ [lbrace])) as (pre & post & E & Hpre).
  { apply in_or_app; right; now left. }
  destruct (split_last rbrace (post ++ r)) as (mid & post' & E' & Hpost).
  { apply in_or_app; now right. }
  exists pre, mid, post'; repeat split; auto.
  rewrite <- E', app_comm_cons, app_assoc.
  change (a ++ [lbrace] ++ r) with (a ++ ([lbrace] ++ r)).
  rewrite app_assoc, E, <- app_assoc; reflexivity.
Qed.

(** ** The candidate string *)

Lemma search_fenced_block (text : str) (m : Re.match_obj) :
  Re.search fenced_re text = Some m ->
  has_fenced_block text = true /\
  exists body, Re.group m 1 = lbrace :: body ++ [rbrace].
Proof.
  intros H; apply search_from_sound in H as (a & t & -> & H).
  apply match_at_fenced_sound in H
    as (ws & body & ws' & post & -> & _ & _ & Hg).
  split.
  - apply has_fenced_block_spec.
    exists a, (ws ++ lbrace :: body ++ rbrace :: ws'), post.
    repeat (rewrite <- ?app_assoc; simpl); reflexivity.
  - exists body; simpl; now rewrite Hg.
Qed.

Lemma no_fenced_block (text : str) :
  has_fenced_block text = false -> Re.search fenced_re text = None.
Proof.
  intros H; destruct (Re.search fenced_re text) as [m|] eqn:E; [|reflexivity].
  apply search_fenced_block in E as [E _]; congruence.
Qed.

Lemma no_brace_span (text : str) :
  has_brace_span text = false -> Re.search brace_re text = None.
Proof.
  intros H; destruct (Re.search brace_re text) as [m|] eqn:E; [|reflexivity].
  apply search_brace_sound in E as (a & b & c & E & _).
  assert (has_brace_span text = true) by (apply has_brace_span_spec; eauto).
  congruence.
Qed.

(** Every candidate runs from a [{] to a [}]. *)
Lemma json_str_shape (text s : str) :
  json_str text = inr s -> exists body, s = lbrace :: body ++ [rbrace].
Proof.
  unfold json_str.
  destruct (Re.search fenced_re text) as [m|] eqn:E.
  - intros [= <-]; now apply search_fenced_block in E as [_ E].
  - destruct (Re.search brace_re text) as [m|] eqn:E'; [|discriminate].
    intros [= <-]; apply search_brace_sound in E' as (a & b & c & _ & Hw).
    now exists b.
Qed.

(** What [json.loads] makes of a candidate is a dict. *)
Lemma parsed_is_dict (text s : str) (data : value) :
  json_str text = inr s -> Json.loads s = inr data -> exists d, data = VDict d.
Proof.
  intros H; apply json_str_shape in H as (body & ->); apply loads_object.
Qed.

(** * The claims *)

(** ** The worked example of the formula *)

(** C2, as stated, fails: the formula at [dia_mm = 12] and
    [total_length = 17.6] is not 13.29. *)
Lemma worked_example_is_not_13_29 :
  ~ (weight (VInt 12) (VFloat f_17_6) = inr worked_example /\
     worked_example = f_13_29).
Proof. intros [_ H]; vm_compute in H; discriminate. Qed.

(** C2, amended: for [dia_mm = 12] and [total_length = 17.6] the
    normaliser computes [round((144/162)*17.6*1.02, 2)], and that value is
    15.96; the loop body stores it over the 1.32 of the prompt's sample
    item. *)
Theorem worked_example_is_15_96 :
  weight (VInt 12) (VFloat f_17_6) = inr worked_example /\
  worked_example = f_15_96 /\
  recalculate_item
    (VDict [(lit "mark", VStr (lit "F1-M1")); (lit "dia_mm", VInt 12);
            (lit "total_length", VFloat f_17_6);
            (lit "weight_kg", VFloat (F64.of_decimal false 132 (-2)))])
  = inr
      (VDict [(lit "mark", VStr (lit "F1-M1")); (lit "dia_mm", VInt 12);
              (lit "total_length", VFloat f_17_6);
              (lit "weight_kg", VFloat f_15_96)]).
Proof. repeat split; vm_compute; reflexivity. Qed.

(** ** Failures end in the placeholder *)

Lemma placeholder_has_shape : placeholder_shape placeholder.
Proof.
  exists [ (lit "scale", VStr (lit "Unknown"));
           (lit "boq", VList []);
           (lit "bbs", VList []);
           (lit "notes",
             VList [VStr (lit "Parsing failed - see raw response above")]);
           (lit "assumptions", VList []) ],
         (lit "Parsing failed - see raw response above").
  repeat split; try reflexivity.
  now apply str_eqb_false.
Qed.

(** *** What the handler prints *)

Lemma surrogate_above (c : char) : (c < 55296)%N -> Py.surrogate c = false.
Proof.
  intros H; unfold Py.surrogate.
  destruct (N.leb_spec 55296 c); [lia|reflexivity].
Qed.

Lemma encodable_app (a b : str) :
  Py.encodable (a ++ b) = Py.encodable a && Py.encodable b.
Proof. unfold Py.encodable; now rewrite existsb_app, negb_orb. Qed.

Lemma encodable_cons (c : char) (a : str) :
  Py.encodable (c :: a) = negb (Py.surrogate c) && Py.encodable a.
Proof. unfold Py.encodable; simpl; now rewrite negb_orb. Qed.

Lemma text_encodable (msg : string) : Py.encodable (Str.text msg) = true.
Proof.
  induction msg as [|a msg IH]; [reflexivity|].
  cbn [Str.text]; rewrite encodable_cons, IH, surrogate_above; [reflexivity|].
  pose proof (N_ascii_bounded a); lia.
Qed.

Lemma hex_encodable (width : nat) :
  forall n, Py.encodable (Py.hex width n) = true.
Proof.
  induction width as [|w IH]; intros n; [reflexivity|].
  cbn [Py.hex]; rewrite encodable_app, IH, encodable_cons.
  assert (H : (n mod 16 < 16)%N) by (apply N.mod_lt; discriminate).
  destruct (N.ltb_spec (n mod 16) 10);
    rewrite surrogate_above by lia; reflexivity.
Qed.

Lemma repr_char_encodable (quote c : char) :
  Py.surrogate quote = false -> Py.encodable (Py.repr_char quote c) = true.
Proof.
  intros Hq; unfold Py.repr_char.
  destruct ((c =? quote)%N || (c =? 92)%N) eqn:E1.
  - apply orb_true_iff in E1 as [E|E]; apply N.eqb_eq in E; subst c;
      rewrite !encodable_cons, ?Hq; reflexivity.
  - destruct (c =? 9)%N; [reflexivity|].
    destruct (c =? 10)%N; [reflexivity|].
    destruct (c =? 13)%N; [reflexivity|].
    destruct ((c <? 32)%N || (c =? 127)%N).
    + rewrite encodable_app, hex_encodable; reflexivity.
    + destruct (Py.surrogate c) eqn:Es.
      * rewrite encodable_app, hex_encodable; reflexivity.
      * now rewrite encodable_cons, Es.
Qed.

Lemma repr_encodable (s : str) : Py.encodable (Py.repr s) = true.
Proof.
  unfold Py.repr.
  set (quote := if Str.mem 39%N s && negb (Str.mem 34%N s) then 34%N
                else 39%N).
  assert (Hq : Py.surrogate quote = false)
    by (subst quote; destruct (Str.mem 39%N s && negb (Str.mem 34%N s));
        reflexivity).
  rewrite encodable_cons, Hq, encodable_app, encodable_cons, Hq.
  cbn [negb andb]; rewrite andb_true_r.
  clearbody quote; induction s as [|c s IH]; [reflexivity|].
  cbn [flat_map]; rewrite encodable_app, IH.
  now rewrite repr_char_encodable.
Qed.

Lemma str_of_encodable (e : exn) : Py.encodable (Py.str_of e) = true.
Proof.
  destruct e; cbn [Py.str_of];
    first [apply text_encodable | apply repr_encodable].
Qed.

(** The handler returns the placeholder when the stream takes the text
    of the response, and raises [UnicodeEncodeError] when it does not. *)
Lemma handler_spec (e : exn) (text : str) :
  handler e text
  = if Py.encodable text then inr placeholder
    else inl Py.surrogates_not_allowed.
Proof.
  unfold handler, Py.print.
  rewrite !encodable_app, str_of_encodable.
  change (Py.encodable [9888%N; 65039%N]) with true.
  change (Py.encodable (lit "  Parse error: ")) with true.
  change (Py.encodable nl) with true.
  change (Py.encodable rule) with true.
  change (Py.encodable (lit "RAW RESPONSE:")) with true.
  cbn [andb bind ret raise].
  destruct (Py.encodable text); reflexivity.
Qed.

Lemma parse_response_try (text : str) :
  _parse_response text
  = match try_block text with
    | inr data => inr data
    | inl _ =>
        if Py.encodable text then inr placeholder
        else inl Py.surrogates_not_allowed
    end.
Proof.
  unfold _parse_response; destruct (try_block text) as [e|data];
    [|reflexivity].
  rewrite <- (handler_spec e text); destruct e; reflexivity.
Qed.

Lemma parse_response_failed (text : str) (e : exn) :
  try_block text = inl e -> Py.encodable text = true ->
  _parse_response text = inr placeholder.
Proof. intros He Ht; now rewrite parse_response_try, He, Ht. Qed.

Lemma parse_response_unprintable (text : str) (e : exn) :
  try_block text = inl e -> Py.encodable text = false ->
  _parse_response text = inl Py.surrogates_not_allowed.
Proof. intros He Ht; now rewrite parse_response_try, He, Ht. Qed.

Lemma no_span_no_candidate (text : str) :
  has_brace_span text = false ->
  json_str text = inl (ValueError "No JSON found in response").
Proof.
  intros H; unfold json_str.
  rewrite (no_brace_span _ H).
  destruct (Re.search fenced_re text) as [m|] eqn:E; [exfalso|reflexivity].
  apply search_from_sound in E as (a & t & -> & E).
  apply match_at_fenced_sound in E as (ws & body & ws' & post & -> & _).
  assert (E : has_brace_span
                (a ++ open_fence ++ ws ++ lbrace :: body ++ rbrace :: ws'
                   ++ close_fence ++ post) = true).
  { apply has_brace_span_spec.
    exists (a ++ open_fence ++ ws), body, (ws' ++ close_fence ++ post).
    now rewrite <- !app_assoc. }
  congruence.
Qed.

(** C3: the handler prints the text of the response before it returns,
    and the stream refuses a text with a surrogate.  On this text, which
    holds no JSON, the [try] block raises [ValueError], the handler
    catches it, its [print(response_text)] raises [UnicodeEncodeError],
    and that exception leaves [_parse_response]: no result is
    returned. *)
Theorem handler_raises_on_surrogate :
  try_block text_surrogate = inl (ValueError "No JSON found in response") /\
  Py.is_Exception (ValueError "No JSON found in response") = true /\
  Py.print text_surrogate = inl Py.surrogates_not_allowed /\
  _parse_response text_surrogate = inl Py.surrogates_not_allowed /\
  forall v, _parse_response text_surrogate <> inr v.
Proof.
  assert (H : _parse_response text_surrogate = inl Py.surrogates_not_allowed)
    by (vm_compute; reflexivity).
  split; [vm_compute; reflexivity|].
  split; [reflexivity|].
  split; [vm_compute; reflexivity|].
  split; [exact H|].
  intros v; rewrite H; discriminate.
Qed.

(** ** The fenced block comes first *)

Lemma app_inv_length {A} (a a' x x' : list A) :
  a ++ x = a' ++ x' -> List.length a = List.length a' -> a = a' /\ x = x'.
Proof.
  revert a'; induction a as [|c a IH]; intros [|c' a'] E L; simpl in *;
    try discriminate; auto.
  injection E as -> E; injection L as L.
  destruct (IH a' E L) as [-> ->]; auto.
Qed.

Lemma find_first (p a t : str) :
  Str.find p (a ++ p ++ t) = Some (List.length a) ->
  forall a1 a2, a = a1 ++ a2 -> a2 <> [] -> strip p (a2 ++ p ++ t) = None.
Proof.
  intros H; apply find_from_Some in H as (a' & t' & E & L & Hfirst).
  apply app_inv_length in E as [<- E]; [|exact L].
  apply app_inv_head in E; subst t'; exact Hfirst.
Qed.

Lemma match_at_fenced_head (i : nat) (s : str) :
  strip open_fence s = None -> Re.match_at fenced_re i s = None.
Proof. intros H; now rewrite match_at_fenced_unfold, H. Qed.

(** C4, as stated, fails: the object of a fenced block may hold, inside a
    string, a [}] followed by a fence; the pattern stops there, the
    candidate is not the object of the block, and the result is the
    placeholder although the block holds well-formed JSON. *)
Lemma fenced_object_cut_short :
  Json.loads object_with_fence
  = inr (VDict [(lit "a", VStr (lit "} ```"))]) /\
  Str.find open_fence text_fence_in_string = Some 0%nat /\
  json_str text_fence_in_string = inr (lit "{'a': '}") /\
  json_str text_fence_in_string <> inr object_with_fence /\
  _parse_response text_fence_in_string = inr placeholder.
Proof.
  repeat split; try (vm_compute; reflexivity).
  vm_compute; discriminate.
Qed.

(** C4, amended: when the opening fence of the block is the first
    [```json] of the text and no [}] between the braces of its object is
    followed by optional white space and a fence, the candidate is the
    object of that block, whatever the prose before and after it holds:
    braces, or further fenced blocks. *)
Theorem fenced_block_precedence (pre ws body ws' post : str) :
  let text := pre ++ open_fence ++ ws ++ lbrace :: body ++ rbrace
                :: ws' ++ close_fence ++ post in
  Str.find open_fence text = Some (List.length pre) ->
  forallb Re.space ws = true -> forallb Re.space ws' = true ->
  closes_early body = false ->
  json_str text = inr (lbrace :: body ++ [rbrace]).
Proof.
  intros text Hfirst Hws Hws' Hbody; unfold json_str, Re.search.
  unfold text.
  rewrite search_from_first
    with (m := {| Re.start := 0 + List.length pre;
                  Re.whole := open_fence ++ ws ++ lbrace :: body ++ rbrace
                                :: ws' ++ close_fence;
                  Re.groups := [lbrace :: body ++ [rbrace]] |}).
  - reflexivity.
  - intros a1 a2 E Hne; apply match_at_fenced_head.
    exact (find_first _ _ _ Hfirst a1 a2 E Hne).
  - now apply match_at_fenced.
Qed.

(** A block between prose with braces, followed by a second block. *)
Lemma fenced_block_precedence_witness :
  json_str
    (prose_before ++ open_fence ++ nl ++ lbrace :: fenced_body ++ rbrace
       :: nl ++ close_fence ++ prose_after)
  = inr (lbrace :: fenced_body ++ [rbrace]).
Proof.
  apply (fenced_block_precedence prose_before nl fenced_body nl prose_after);
    vm_compute; reflexivity.
Defined.

(** ** The fallback *)

(** C5: a text with no json-tagged fenced block and with a [{] followed
    later by a [}] has a span from its first [{] to its last [}], and
    that span is the candidate; what [json.loads] makes of it is the
    data the loop works on. *)
Theorem bare_object_fallback (text : str) :
  has_fenced_block text = false -> has_brace_span text = true ->
  (exists pre mid post,
     text = pre ++ lbrace :: mid ++ rbrace :: post /\
     ~ In lbrace pre /\ ~ In rbrace post) /\
  (forall pre mid post,
     text = pre ++ lbrace :: mid ++ rbrace :: post ->
     ~ In lbrace pre -> ~ In rbrace post ->
     json_str text = inr (lbrace :: mid ++ [rbrace]) /\
     forall data, Json.loads (lbrace :: mid ++ [rbrace]) = inr data ->
       try_block text = recalculate data).
Proof.
  intros Hfence Hspan; split; [now apply brace_span_extremes|].
  intros pre mid post E Hpre Hpost.
  assert (Hs : json_str text = inr (lbrace :: mid ++ [rbrace])).
  { unfold json_str; rewrite (no_fenced_block _ Hfence), E.
    now rewrite search_brace. }
  split; [exact Hs|].
  intros data Hd; unfold try_block; rewrite Hs; cbn [bind].
  rewrite Hd; reflexivity.
Qed.

(** A bare object between two pieces of prose. *)
Lemma bare_object_fallback_witness :
  json_str text_bare = inr (lbrace :: bare_body ++ [rbrace]) /\
  try_block text_bare
  = inr (VDict [(lit "scale", VStr (lit "1:50")); (lit "boq", VList [])]).
Proof.
  assert (Hfence : has_fenced_block text_bare = false)
    by (vm_compute; reflexivity).
  assert (Hspan : has_brace_span text_bare = true)
    by (vm_compute; reflexivity).
  destruct (proj2 (bare_object_fallback text_bare Hfence Hspan)
              bare_before bare_body bare_after eq_refl) as [Hs Hd].
  - vm_compute; intuition discriminate.
  - vm_compute; intuition discriminate.
  - split; [exact Hs|].
    apply (Hd (VDict [(lit "scale", VStr (lit "1:50")); (lit "boq", VList [])])).
    vm_compute; reflexivity.
Defined.

(** ** The weights of the result *)

Lemma try_block_steps (text s : str) (data : value) :
  json_str text = inr s -> Json.loads s = inr data ->
  try_block text = recalculate data.
Proof. intros Hs Hd; unfold try_block; rewrite Hs; simpl; now rewrite Hd. Qed.

(** One item that raises sends the whole call to the handler. *)
Lemma failing_item_try_block (text s : str) (d : Dict.dict)
      (l : list value) (item : value) (e : exn) :
  json_str text = inr s -> Json.loads s = inr (VDict d) ->
  Dict.get (lit "bbs") d = Some (VList l) ->
  In item l -> recalculate_item item = inl e ->
  exists e', try_block text = inl e'.
Proof.
  intros Hs Hd Hb Hin He.
  rewrite (try_block_steps _ _ _ Hs Hd); simpl.
  rewrite Hb; simpl.
  destruct (mapM_inl recalculate_item l item e Hin He) as (e' & ->).
  exists e'; reflexivity.
Qed.

Lemma failing_item_placeholder (text s : str) (d : Dict.dict)
      (l : list value) (item : value) (e : exn) :
  json_str text = inr s -> Json.loads s = inr (VDict d) ->
  Dict.get (lit "bbs") d = Some (VList l) ->
  In item l -> recalculate_item item = inl e ->
  Py.encodable text = true ->
  _parse_response text = inr placeholder.
Proof.
  intros Hs Hd Hb Hin He Ht.
  destruct (failing_item_try_block _ _ _ _ _ _ Hs Hd Hb Hin He) as (e' & E).
  exact (parse_response_failed _ _ E Ht).
Qed.

(** On numbers the formula has a value unless an operation overflows. *)
Lemma weight_numeric (dia length : value) :
  numeric dia = true -> numeric length = true ->
  (exists w, weight dia length = inr w) \/
  (exists msg, weight dia length = inl (OverflowError msg)).
Proof.
  intros Hd Hl; unfold weight.
  assert (Hq : (exists q, x <- Py.pow2 dia ;; Py.truediv x 162 = inr q) \/
               (exists msg, x <- Py.pow2 dia ;; Py.truediv x 162
                            = inl (OverflowError msg))).
  { destruct dia as [|b|z|f| | |]; try discriminate; simpl.
    - unfold Py.int_truediv.
      destruct (Py.Z_of_bool b * Py.Z_of_bool b) as [|n|n];
        [eauto| |]; destruct (F64.is_inf _); eauto.
    - unfold Py.int_truediv.
      destruct (z * z) as [|n|n]; [eauto| |]; destruct (F64.is_inf _); eauto.
    - unfold Py.float_pow2; destruct f as [| | |sg m e]; simpl; eauto.
      destruct (F64.is_inf _); simpl; eauto. }
  destruct Hq as [(q & Hq)|(msg & Hq)].
  - destruct (Py.pow2 dia) as [e|x]; simpl in *; [discriminate|].
    rewrite Hq; simpl.
    destruct length as [|b|z|f| | |]; try discriminate; simpl; eauto;
      unfold Py.int_to_float; destruct (F64.is_inf _); simpl; eauto.
  - right; exists msg.
    destruct (Py.pow2 dia) as [e|x]; simpl in *; [exact Hq|now rewrite Hq].
Qed.

(** C1, as stated, fails: the first item of this schedule has a numeric
    [dia_mm] and [total_length], for which the formula gives 15.96, but the
    second item has neither, the call returns the placeholder, and the
    result holds no item with that weight. *)
Lemma sibling_item_discards_weight :
  json_str text_one_bad_item = inr text_one_bad_item /\
  Json.loads text_one_bad_item
  = inr (VDict [(lit "bbs", VList [item_A; item_B])]) /\
  has_weight item_A f_15_96 /\
  _parse_response text_one_bad_item = inr placeholder /\
  ~ (exists res l' item',
       _parse_response text_one_bad_item = inr (VDict res) /\
       Dict.get (lit "bbs") res = Some (VList l') /\
       nth_error l' 0 = Some item' /\ weight_stored item' f_15_96).
Proof.
  assert (H : _parse_response text_one_bad_item = inr placeholder)
    by (vm_compute; reflexivity).
  split; [vm_compute; reflexivity|].
  split; [vm_compute; reflexivity|].
  split; [|split; [exact H|]].
  - exists [(lit "mark", VStr (lit "A")); (lit "dia_mm", VInt 12);
            (lit "total_length", VFloat f_17_6);
            (lit "weight_kg", VFloat (F64.of_decimal false 132 (-2)))],
      (VInt 12), (VFloat f_17_6).
    split; [reflexivity|].
    split; [reflexivity|].
    split; [reflexivity|].
    vm_compute; reflexivity.
  - intros (res & l' & item' & Hr & Hb & Hn & _).
    rewrite H in Hr.
    assert (E : res = [ (lit "scale", VStr (lit "Unknown"));
                        (lit "boq", VList []);
                        (lit "bbs", VList []);
                        (lit "notes",
                          VList [VStr (lit "Parsing failed - see raw response above")]);
                        (lit "assumptions", VList []) ])
      by (unfold placeholder in Hr; congruence).
    subst res.
    change (Some (VList []) = Some (VList l')) in Hb.
    assert (l' = []) by congruence.
    subst l'; discriminate.
Qed.

(** C1, amended: when the candidate deserializes and every item of its
    bbs list is a dict for whose [dia_mm] and [total_length] the formula
    has a value (numbers, and no overflow), the result holds, item for
    item, that value as [weight_kg], whatever [weight_kg] the input
    had.  When the loop body raises for an item of the list and the text
    of the response can be printed, the call returns the placeholder,
    whose bbs list is empty: no item of the input is in the result. *)
Theorem weights_recomputed (text s : str) (d : Dict.dict) (l : list value) :
  json_str text = inr s -> Json.loads s = inr (VDict d) ->
  Dict.get (lit "bbs") d = Some (VList l) ->
  (Forall (fun item => exists w, has_weight item w) l ->
   exists res l',
     _parse_response text = inr (VDict res) /\
     Dict.get (lit "bbs") res = Some (VList l') /\
     Forall2 (fun item item' =>
                exists w, has_weight item w /\ weight_stored item' w) l l') /\
  (forall item e, In item l -> recalculate_item item = inl e ->
     Py.encodable text = true ->
     exists res,
       _parse_response text = inr (VDict res) /\
       VDict res = placeholder /\
       Dict.get (lit "bbs") res = Some (VList [])).
Proof.
  intros Hs Hd Hb; split; [intros Hl|]; cycle 1.
  { intros item e Hin He Ht; eexists; split; [|split; reflexivity].
    exact (failing_item_placeholder _ _ _ _ _ _ Hs Hd Hb Hin He Ht). }
  assert (H : exists l', Forall2 (fun a b => recalculate_item a = inr b) l l' /\
                Forall2 (fun item item' =>
                  exists w, has_weight item w /\ weight_stored item' w) l l').
  { clear Hb; induction Hl as [|item l (w & it & dia & len & -> & H1 & H2 & H3) _ IH].
    - exists []; split; constructor.
    - destruct IH as (l' & IH1 & IH2).
      exists (VDict (Dict.set (lit "weight_kg") (VFloat w) it) :: l'); split.
      + constructor; [|exact IH1].
        apply recalculate_item_inr; exists it, dia, len, w; auto.
      + constructor; [|exact IH2].
        exists w; split; [exists it, dia, len; auto|].
        eexists; split; [reflexivity|apply get_set_same]. }
  destruct H as (l' & Hrec & Hw).
  exists (Dict.set (lit "bbs") (VList l') d), l'; repeat split.
  - rewrite parse_response_try, (try_block_steps _ _ _ Hs Hd).
    assert (E : recalculate (VDict d)
                = inr (VDict (Dict.set (lit "bbs") (VList l') d)))
      by (apply recalculate_inr; now apply rec_list with (l := l)).
    now rewrite E.
  - apply get_set_same.
  - exact Hw.
Qed.

(** The sample item of the prompt, sent back with the weight 1.32; then
    the same item followed by one without its fields. *)
Lemma weights_recomputed_witness :
  (exists res l',
     _parse_response text_good = inr (VDict res) /\
     Dict.get (lit "bbs") res = Some (VList l') /\
     Forall2 (fun item item' =>
                exists w, has_weight item w /\ weight_stored item' w)
       [item_A] l') /\
  (exists res,
     _parse_response text_one_bad_item = inr (VDict res) /\
     VDict res = placeholder /\
     Dict.get (lit "bbs") res = Some (VList [])).
Proof.
  split; cycle 1.
  { apply (proj2 (weights_recomputed text_one_bad_item text_one_bad_item
                    [(lit "bbs", VList [item_A; item_B])]
                    [item_A; item_B] eq_refl eq_refl eq_refl)
             item_B (KeyError (lit "dia_mm"))).
    - right; left; reflexivity.
    - reflexivity.
    - reflexivity. }
  assert (Hs : json_str text_good = inr text_good)
    by (vm_compute; reflexivity).
  assert (Hd : Json.loads text_good
               = inr (VDict
                   [(lit "scale", VStr (lit "1:100"));
                    (lit "boq",
                      VList [VDict [(lit "component", VStr (lit "F1"))];
                             VDict [(lit "component", VStr (lit "S1"))]]);
                    (lit "bbs", VList [item_A])]))
    by (vm_compute; reflexivity).
  apply (proj1 (weights_recomputed text_good text_good _ [item_A] Hs Hd
                  eq_refl)).
  - constructor; [|constructor].
    exists f_15_96.
    exists [(lit "mark", VStr (lit "A")); (lit "dia_mm", VInt 12);
            (lit "total_length", VFloat f_17_6);
            (lit "weight_kg", VFloat (F64.of_decimal false 132 (-2)))],
      (VInt 12), (VFloat f_17_6).
    split; [reflexivity|].
    split; [reflexivity|].
    split; [reflexivity|].
    vm_compute; reflexivity.
Defined.

(** ** Items without their fields *)

Lemma pow2_not_numeric (dia : value) :
  numeric dia = false -> exists msg, Py.pow2 dia = inl (TypeError msg).
Proof. destruct dia; try discriminate; simpl; eauto. Qed.

Lemma float_mul_not_numeric (x : F64.float) (length : value) :
  numeric length = false ->
  exists msg, Py.float_mul x length = inl (TypeError msg).
Proof. destruct length; try discriminate; simpl; eauto. Qed.

(** C6, as stated, fails: for an item with the mark F1-M1 and no
    [dia_mm], the loop body raises [KeyError('dia_mm')]; the exception
    carries the name of the key, not the mark, and the caller of
    [_parse_response] gets the placeholder with its fixed note. *)
Lemma missing_field_error_has_no_mark :
  Dict.get (lit "mark") item_no_dia = Some (VStr (lit "F1-M1")) /\
  Dict.get (lit "dia_mm") item_no_dia = None /\
  recalculate_item (VDict item_no_dia) = inl (KeyError (lit "dia_mm")) /\
  Str.find (lit "F1-M1") (exn_text (KeyError (lit "dia_mm"))) = None /\
  Json.loads text_no_dia = inr (VDict [(lit "bbs", VList [VDict item_no_dia])]) /\
  _parse_response text_no_dia = inr placeholder.
Proof. repeat split; vm_compute; reflexivity. Qed.

(** C6, amended: for an item that is a dict, a missing [dia_mm] or
    [total_length] makes the loop body raise a [KeyError] that names the
    missing key; a [dia_mm] that is not a number makes it raise a
    [TypeError]; a [total_length] that is not a number makes it raise a
    [TypeError], or the [OverflowError] of the division when that comes
    first.  The exception does not tell the mark: an item with the same
    [dia_mm] and [total_length], whatever its mark and its other fields,
    raises the same exception.  When the item stands in the bbs list of
    the parsed text the exception is caught, and [_parse_response] returns
    the placeholder when the text of the response can be printed. *)
Theorem missing_field_raises (it : Dict.dict) :
  (Dict.get (lit "dia_mm") it = None ->
   recalculate_item (VDict it) = inl (KeyError (lit "dia_mm"))) /\
  (forall dia, Dict.get (lit "dia_mm") it = Some dia ->
     Dict.get (lit "total_length") it = None ->
     recalculate_item (VDict it) = inl (KeyError (lit "total_length"))) /\
  (forall dia length, Dict.get (lit "dia_mm") it = Some dia ->
     Dict.get (lit "total_length") it = Some length ->
     numeric dia = false ->
     exists msg, recalculate_item (VDict it) = inl (TypeError msg)) /\
  (forall dia length, Dict.get (lit "dia_mm") it = Some dia ->
     Dict.get (lit "total_length") it = Some length ->
     numeric dia = true -> numeric length = false ->
     exists msg, recalculate_item (VDict it) = inl (TypeError msg) \/
                 recalculate_item (VDict it) = inl (OverflowError msg)) /\
  (forall it' e,
     Dict.get (lit "dia_mm") it' = Dict.get (lit "dia_mm") it ->
     Dict.get (lit "total_length") it' = Dict.get (lit "total_length") it ->
     recalculate_item (VDict it) = inl e ->
     recalculate_item (VDict it') = inl e) /\
  (forall text s d l e, json_str text = inr s ->
     Json.loads s = inr (VDict d) ->
     Dict.get (lit "bbs") d = Some (VList l) -> In (VDict it) l ->
     recalculate_item (VDict it) = inl e ->
     Py.encodable text = true ->
     _parse_response text = inr placeholder).
Proof.
  split; [|split; [|split; [|split; [|split]]]];
    try (intros text s d l e; apply failing_item_placeholder);
    unfold recalculate_item; simpl.
  5: { intros it' e -> ->.
       destruct (Dict.get (lit "dia_mm") it) as [dia|]; simpl; [|auto].
       destruct (Dict.get (lit "total_length") it) as [len|]; simpl; [|auto].
       destruct (weight dia len) as [e'|w]; simpl; [auto|discriminate]. }
  - intros ->; reflexivity.
  - intros dia -> ->; reflexivity.
  - intros dia len -> -> Hd; simpl; unfold weight.
    destruct (pow2_not_numeric dia Hd) as (msg & ->); simpl; eauto.
  - intros dia len -> -> Hd Hl; simpl; unfold weight.
    destruct (Py.pow2 dia) as [e|sq] eqn:Ep; simpl.
    + destruct dia as [|b|z|f| | |]; try discriminate.
      simpl in Ep; unfold Py.float_pow2 in Ep.
      destruct f as [| | |sg m ex]; simpl in Ep; try discriminate.
      destruct (F64.is_inf _); simpl in Ep; [|discriminate].
      injection Ep as <-; eauto.
    + destruct (Py.truediv sq 162) as [e|q] eqn:Eq; simpl.
      * destruct dia as [|b|z|f| | |]; try discriminate; simpl in Ep.
        -- injection Ep as <-; simpl in Eq; unfold Py.int_truediv in Eq.
           destruct (Py.Z_of_bool b * Py.Z_of_bool b) as [|n|n];
             [discriminate| |]; destruct (F64.is_inf _);
             try discriminate; injection Eq as <-; eauto.
        -- injection Ep as <-; simpl in Eq; unfold Py.int_truediv in Eq.
           destruct (z * z) as [|n|n];
             [discriminate| |]; destruct (F64.is_inf _);
             try discriminate; injection Eq as <-; eauto.
        -- destruct (Py.float_pow2 f); simpl in Ep; [discriminate|].
           injection Ep as <-; discriminate.
      * destruct (float_mul_not_numeric q len Hl) as (msg & ->); simpl; eauto.
Qed.

(** An item with a mark and a length only. *)
Lemma missing_field_raises_witness :
  recalculate_item (VDict item_no_dia) = inl (KeyError (lit "dia_mm")).
Proof.
  apply (proj1 (missing_field_raises item_no_dia)).
  vm_compute; reflexivity.
Defined.

(** ** One bad item discards the result *)

(** C7: when the loop raises, and so when the loop body raises for an
    item of the list, the handler runs: the caller gets the placeholder
    when the text of the response can be printed, and the
    [UnicodeEncodeError] of [print(response_text)] when it cannot.  In
    neither case does it get anything of the parsed data, its boq or the
    items recalculated before the one that failed. *)
Theorem normalization_atomic (text s : str) (data : value) :
  json_str text = inr s -> Json.loads s = inr data ->
  (forall e, recalculate data = inl e ->
     _parse_response text
     = if Py.encodable text then inr placeholder
       else inl Py.surrogates_not_allowed) /\
  (forall d l item e, data = VDict d ->
     Dict.get (lit "bbs") d = Some (VList l) -> In item l ->
     recalculate_item item = inl e ->
     _parse_response text
     = if Py.encodable text then inr placeholder
       else inl Py.surrogates_not_allowed) /\
  placeholder_shape placeholder.
Proof.
  intros Hs Hd; split; [|split].
  - intros e He.
    now rewrite parse_response_try, (try_block_steps _ _ _ Hs Hd), He.
  - intros d l item e -> Hb Hin He.
    destruct (failing_item_try_block _ _ _ _ _ _ Hs Hd Hb Hin He)
      as (e' & E).
    now rewrite parse_response_try, E.
  - apply placeholder_has_shape.
Qed.

(** A complete item followed by one without its fields, and then a
    surrogate: the handler raises.  Without the surrogate the caller gets
    the placeholder. *)
Lemma normalization_atomic_witness :
  recalculate_item item_A = inr item_A' /\
  recalculate_item item_B = inl (KeyError (lit "dia_mm")) /\
  _parse_response text_bad_item_surrogate
  = inl Py.surrogates_not_allowed /\
  _parse_response text_one_bad_item = inr placeholder.
Proof.
  split; [vm_compute; reflexivity|].
  split; [vm_compute; reflexivity|].
  split.
  - apply (proj1 (proj2 (normalization_atomic text_bad_item_surrogate
                           text_one_bad_item
                           (VDict [(lit "bbs", VList [item_A; item_B])])
                           eq_refl eq_refl))
             [(lit "bbs", VList [item_A; item_B])] [item_A; item_B] item_B
             (KeyError (lit "dia_mm")) eq_refl eq_refl).
    + right; left; reflexivity.
    + reflexivity.
  - apply (proj1 (proj2 (normalization_atomic text_one_bad_item
                           text_one_bad_item
                           (VDict [(lit "bbs", VList [item_A; item_B])])
                           eq_refl eq_refl))
             [(lit "bbs", VList [item_A; item_B])] [item_A; item_B] item_B
             (KeyError (lit "dia_mm")) eq_refl eq_refl).
    + right; left; reflexivity.
    + reflexivity.
Defined.

(** ** What the loop leaves as it is *)

Lemma recalculate_item_frame (item item' : value) :
  recalculate_item item = inr item' ->
  weight_assigned item item' /\ same_but_weight item item'.
Proof.
  intros H; apply recalculate_item_inr in H
    as (it & dia & len & w & -> & _ & _ & _ & ->).
  split.
  - now exists it, w.
  - exists it, (Dict.set (lit "weight_kg") (VFloat w) it); repeat split.
    intros k Hk; now apply get_set_other.
Qed.

Lemma Forall2_impl {A B} (P Q : A -> B -> Prop) (l : list A) (l' : list B) :
  (forall a b, P a b -> Q a b) -> Forall2 P l l' -> Forall2 Q l l'.
Proof. intros HPQ H; induction H; constructor; auto. Qed.

(** The data after the loop, against the data before it. *)
Lemma recalculated_frame (data res : value) :
  recalculated data res ->
  exists d d',
    data = VDict d /\ res = VDict d' /\
    Dict.keys d' = Dict.keys d /\
    (forall k, k <> lit "bbs" -> Dict.get k d' = Dict.get k d) /\
    (forall l, Dict.get (lit "bbs") d = Some (VList l) ->
       exists l', Dict.get (lit "bbs") d' = Some (VList l') /\
         Forall2 (fun a b => recalculate_item a = inr b) l l') /\
    ((forall l, Dict.get (lit "bbs") d <> Some (VList l)) -> d' = d).
Proof.
  intros H; destruct H as [d H|d l l' H Hl|d bbs H Hb].
  - exists d, d; repeat split; auto.
    intros l E; congruence.
  - exists d, (Dict.set (lit "bbs") (VList l') d); repeat split.
    + exact (keys_set_present _ _ _ _ H).
    + intros k Hk; now apply get_set_other.
    + intros l0 E; rewrite H in E; injection E as <-.
      exists l'; split; [apply get_set_same|exact Hl].
    + intros Hno; now destruct (Hno l).
  - exists d, d; repeat split; auto.
    intros l E; rewrite H in E; destruct Hb as [-> | ->]; discriminate.
Qed.

(** C8: on a result that was parsed and recalculated, every key of the
    data keeps its place; every field but bbs (scale, boq with its items,
    notes, assumptions and any other) keeps its value; the bbs list keeps
    its items in place, each with the value it had at every key but
    [weight_kg]. *)
Theorem pass_through (text s : str) (data res : value) :
  json_str text = inr s -> Json.loads s = inr data ->
  recalculate data = inr res ->
  _parse_response text = inr res /\
  exists d d',
    data = VDict d /\ res = VDict d' /\
    Dict.keys d' = Dict.keys d /\
    (forall k, k <> lit "bbs" -> Dict.get k d' = Dict.get k d) /\
    (forall l, Dict.get (lit "bbs") d = Some (VList l) ->
       exists l', Dict.get (lit "bbs") d' = Some (VList l') /\
         Forall2 same_but_weight l l') /\
    ((forall l, Dict.get (lit "bbs") d <> Some (VList l)) -> d' = d).
Proof.
  intros Hs Hd Hr; split.
  - now rewrite parse_response_try, (try_block_steps _ _ _ Hs Hd), Hr.
  - apply recalculate_inr, recalculated_frame in Hr
      as (d & d' & -> & -> & Hk & Hother & Hbbs & Hsame).
    exists d, d'; repeat split; auto.
    intros l Hl; destruct (Hbbs l Hl) as (l' & Hl' & Hrec).
    exists l'; split; [exact Hl'|].
    apply Forall2_impl with (2 := Hrec).
    intros a b H; now apply recalculate_item_frame in H.
Qed.

(** A text with a scale, two boq items and one bbs item. *)
Lemma pass_through_witness :
  _parse_response text_good = inr data_good' /\
  exists d d',
    data_good = VDict d /\ data_good' = VDict d' /\
    Dict.keys d' = Dict.keys d /\
    (forall k, k <> lit "bbs" -> Dict.get k d' = Dict.get k d) /\
    (forall l, Dict.get (lit "bbs") d = Some (VList l) ->
       exists l', Dict.get (lit "bbs") d' = Some (VList l') /\
         Forall2 same_but_weight l l') /\
    ((forall l, Dict.get (lit "bbs") d <> Some (VList l)) -> d' = d).
Proof.
  apply (pass_through text_good text_good data_good data_good').
  - vm_compute; reflexivity.
  - vm_compute; reflexivity.
  - vm_compute; reflexivity.
Defined.

(** ** Twice is once *)

Lemma Forall2_again (l l' : list value) :
  Forall2 (fun a b => recalculate_item a = inr b) l l' ->
  Forall2 (fun a b => recalculate_item a = inr b) l' l'.
Proof.
  intros H; induction H as [|a b l l' Hab _ IH]; constructor; auto.
  now apply recalculate_item_again with (item := a).
Qed.

(** C9: when the loop has run on [data] without an exception and left
    [data'], a second run on [data'] leaves [data'], and with it every
    [weight_kg]. *)
Theorem recalculate_idempotent (data data' : value) :
  recalculate data = inr data' -> recalculate data' = inr data'.
Proof.
  intros H; apply recalculate_inr in H; apply recalculate_inr.
  destruct H as [d H|d l l' H Hl|d bbs H Hb].
  - now apply rec_no_bbs.
  - rewrite <- (set_set (lit "bbs") (VList l') (VList l') d) at 2.
    apply rec_list with (l := l').
    + apply get_set_same.
    + now apply Forall2_again with (l := l).
  - now apply rec_empty with (bbs := bbs).
Qed.

(** The same data, recalculated once and twice. *)
Lemma recalculate_idempotent_witness :
  recalculate data_good = inr data_good' /\
  recalculate data_good' = inr data_good'.
Proof.
  assert (H : recalculate data_good = inr data_good')
    by (vm_compute; reflexivity).
  split; [exact H|].
  exact (recalculate_idempotent data_good data_good' H).
Defined.

(** ** Order *)

(** C10: [JSONArray] returns the values of an array in the order in
    which it scans them in the text, each once; on a result that was
    parsed and recalculated, the boq of the result is the boq of the
    parsed data, and the bbs list of the result holds, place for place,
    the items of the parsed list after the assignment to their
    [weight_kg]. *)
Theorem order_preserved :
  (forall fuel s values v rest,
     Json.array_loop fuel s values = inr (v, rest) ->
     exists vs, v = VList (values ++ vs) /\ array_items fuel s vs rest) /\
  (forall text s data res,
     json_str text = inr s -> Json.loads s = inr data ->
     recalculate data = inr res ->
     _parse_response text = inr res /\
     exists d d',
       data = VDict d /\ res = VDict d' /\
       Dict.get (lit "boq") d' = Dict.get (lit "boq") d /\
       (forall l, Dict.get (lit "bbs") d = Some (VList l) ->
          exists l', Dict.get (lit "bbs") d' = Some (VList l') /\
            List.length l' = List.length l /\
            Forall2 weight_assigned l l')).
Proof.
  split; [exact array_loop_order|].
  intros text s data res Hs Hd Hr; split.
  - now rewrite parse_response_try, (try_block_steps _ _ _ Hs Hd), Hr.
  - apply recalculate_inr, recalculated_frame in Hr
      as (d & d' & -> & -> & _ & Hother & Hbbs & _).
    exists d, d'; repeat split; auto.
    + apply Hother; now apply str_eqb_false.
    + intros l Hl; destruct (Hbbs l Hl) as (l' & Hl' & Hrec).
      exists l'; repeat split; [exact Hl'| |].
      * symmetry; exact (Forall2_length Hrec).
      * apply Forall2_impl with (2 := Hrec).
        intros a b H; now apply recalculate_item_frame in H.
Qed.

(** An array of three numbers, and the text with two boq items. *)
Lemma order_preserved_witness :
  (exists vs,
     VList [VInt 1; VInt 2; VInt 3] = VList ([] ++ vs) /\
     array_items 9%nat (lit "1, 2 ,3] tail") vs (lit " tail")) /\
  _parse_response text_good = inr data_good'.
Proof.
  split.
  - apply (proj1 order_preserved 9%nat (lit "1, 2 ,3] tail") []
             (VList [VInt 1; VInt 2; VInt 3]) (lit " tail")).
    vm_compute; reflexivity.
  - apply (proj2 order_preserved text_good text_good data_good data_good').
    + vm_compute; reflexivity.
    + vm_compute; reflexivity.
    + vm_compute; reflexivity.
Defined.

(** * More of the file *)

(** ** What every caller of [_parse_response] can rely on *)

Lemma try_block_inr (text : str) (res : value) :
  try_block text = inr res ->
  exists s data,
    json_str text = inr s /\ Json.loads s = inr data /\
    recalculate data = inr res.
Proof.
  unfold try_block.
  destruct (json_str text) as [e|s]; simpl; [discriminate|].
  destruct (Json.loads s) as [e|data] eqn:Ed; simpl; [discriminate|].
  intros H; now exists s, data.
Qed.

Lemma try_block_dict (text : str) (res : value) :
  try_block text = inr res -> exists d, res = VDict d.
Proof.
  intros E; apply try_block_inr in E as (s & data & _ & _ & Hr).
  apply recalculate_inr in Hr; destruct Hr; eauto.
Qed.

(** On a text that can be printed, [_parse_response] returns a dict. *)
Lemma parse_response_dict (text : str) :
  Py.encodable text = true -> exists d, _parse_response text = inr (VDict d).
Proof.
  intros Ht; rewrite parse_response_try, Ht.
  destruct (try_block text) as [e|res] eqn:E.
  - unfold placeholder; eauto.
  - destruct (try_block_dict _ _ E) as (d & ->); eauto.
Qed.

(** What [_parse_response] returns is a dict. *)
Lemma parse_response_inr_dict (text : str) (v : value) :
  _parse_response text = inr v -> exists d, v = VDict d.
Proof.
  rewrite parse_response_try.
  destruct (try_block text) as [e|res] eqn:E.
  - destruct (Py.encodable text); [|discriminate].
    intros [= <-]; unfold placeholder; eauto.
  - intros [= <-]; exact (try_block_dict _ _ E).
Qed.

(** X1: on a text that can be printed, [_parse_response] returns a dict,
    so the [result.get(...)] of its callers never fails for want of the
    method; it is the placeholder when the text has no [{] followed by a
    [}] and when [json.loads] rejects the candidate.  On every text,
    what it returns is a dict, and the one exception it raises is the
    [UnicodeEncodeError] of the handler, on a text with a surrogate for
    which the [try] block has failed. *)
Theorem parse_response_outcome (text : str) :
  (Py.encodable text = true ->
   (exists d, _parse_response text = inr (VDict d)) /\
   (has_brace_span text = false -> _parse_response text = inr placeholder) /\
   (forall s e, json_str text = inr s -> Json.loads s = inl e ->
      _parse_response text = inr placeholder)) /\
  (forall v, _parse_response text = inr v -> exists d, v = VDict d) /\
  (forall e, _parse_response text = inl e ->
     e = Py.surrogates_not_allowed /\ Py.encodable text = false /\
     exists e', try_block text = inl e') /\
  placeholder_shape placeholder.
Proof.
  split; [|split; [|split]].
  - intros Ht; split; [now apply parse_response_dict|split].
    + intros H; apply parse_response_failed
        with (e := ValueError "No JSON found in response"); [|exact Ht].
      unfold try_block; now rewrite (no_span_no_candidate _ H).
    + intros s e Hs He; apply parse_response_failed with (e := e);
        [|exact Ht].
      unfold try_block; rewrite Hs; simpl; rewrite He; reflexivity.
  - intros v; apply parse_response_inr_dict.
  - intros e; rewrite parse_response_try.
    destruct (try_block text) as [e'|res] eqn:E; [|discriminate].
    destruct (Py.encodable text); [discriminate|].
    intros [= <-]; eauto.
  - apply placeholder_has_shape.
Qed.

(** The excuse of the spec, a text with a broken array, and the excuse
    followed by a surrogate. *)
Lemma parse_response_outcome_witness :
  _parse_response text_sorry = inr placeholder /\
  _parse_response text_malformed = inr placeholder /\
  (Py.encodable text_surrogate = false /\
   exists e', try_block text_surrogate = inl e').
Proof.
  split; [|split].
  - apply (proj1 (proj2 (proj1 (parse_response_outcome text_sorry)
                           eq_refl))).
    vm_compute; reflexivity.
  - apply (proj2 (proj2 (proj1 (parse_response_outcome text_malformed)
                           eq_refl))
             text_malformed (JSONDecodeError "Expecting value")).
    + vm_compute; reflexivity.
    + vm_compute; reflexivity.
  - apply (proj1 (proj2 (proj2 (parse_response_outcome text_surrogate)))
             Py.surrogates_not_allowed).
    vm_compute; reflexivity.
Defined.

Lemma weight_inr_numeric (dia length : value) (w : F64.float) :
  weight dia length = inr w -> numeric dia = true /\ numeric length = true.
Proof.
  unfold weight.
  destruct (Py.pow2 dia) as [e|sq] eqn:Ep; simpl; [discriminate|].
  destruct (Py.truediv sq 162) as [e|q]; simpl; [discriminate|].
  destruct (Py.float_mul q length) as [e|x] eqn:Em; simpl; [discriminate|].
  intros _; split.
  - destruct dia; try discriminate; reflexivity.
  - destruct length; try discriminate; reflexivity.
Qed.

Lemma recalculate_item_normalised (item item' : value) :
  recalculate_item item = inr item' -> normalised item'.
Proof.
  intros H; apply recalculate_item_inr in H
    as (it & dia & len & w & -> & Hd & Hl & Hw & ->).
  destruct (weight_inr_numeric _ _ _ Hw) as [Nd Nl].
  exists (Dict.set (lit "weight_kg") (VFloat w) it), dia, len, w.
  repeat split; auto.
  - rewrite get_set_other; [exact Hd|now apply str_eqb_false].
  - rewrite get_set_other; [exact Hl|now apply str_eqb_false].
  - apply get_set_same.
Qed.

(** The bbs list that the [try] block leaves. *)
Lemma try_block_items_normalised (text : str) (d : Dict.dict)
      (l : list value) :
  try_block text = inr (VDict d) ->
  Dict.get (lit "bbs") d = Some (VList l) ->
  Forall normalised l.
Proof.
  intros E Hb.
  apply try_block_inr in E as (s & data & _ & _ & Hr).
  apply recalculate_inr in Hr.
  inversion Hr as [d0 H0 E1 E2|d0 l0 l' H0 Hl E1 E2|d0 bbs H0 Hbbs E1 E2];
    subst.
  - congruence.
  - rewrite get_set_same in Hb; injection Hb as <-.
    clear H0 Hr; induction Hl as [|a b l0 l' Hab _ IH]; constructor; auto.
    now apply recalculate_item_normalised with (item := a).
  - rewrite H0 in Hb; injection Hb as ->.
    destruct Hbbs; discriminate.
Qed.

(** X2: in every result, parsed or placeholder, every item of a bbs
    list is a dict with a numeric [dia_mm] and [total_length] and with
    the float of the formula as [weight_kg]. *)
Theorem returned_items_normalised (text : str) (d : Dict.dict)
        (l : list value) :
  _parse_response text = inr (VDict d) ->
  Dict.get (lit "bbs") d = Some (VList l) ->
  Forall normalised l.
Proof.
  rewrite parse_response_try.
  destruct (try_block text) as [e|res] eqn:E.
  - destruct (Py.encodable text); [|discriminate].
    intros [= <-] Hb; vm_compute in Hb; injection Hb as <-; constructor.
  - intros [= ->] Hb; exact (try_block_items_normalised _ _ _ E Hb).
Qed.

(** The text with two boq items and one bbs item. *)
Lemma returned_items_normalised_witness : Forall normalised [item_A'].
Proof.
  apply (returned_items_normalised text_good
           [(lit "scale", VStr (lit "1:100"));
            (lit "boq", VList [VDict [(lit "component", VStr (lit "F1"))];
                               VDict [(lit "component", VStr (lit "S1"))]]);
            (lit "bbs", VList [item_A'])]).
  - vm_compute; reflexivity.
  - vm_compute; reflexivity.
Defined.

(** X3: a parsed object without bbs, or whose bbs is an empty object or
    an empty string, is returned as parsed; one whose bbs is anything
    else but a list (null, a number, true or false, an object or a string
    that is not empty) is discarded by the handler: for the placeholder
    when the text of the response can be printed, for the
    [UnicodeEncodeError] of the handler when it cannot. *)
Theorem bbs_that_is_no_list (text s : str) (d : Dict.dict) :
  json_str text = inr s -> Json.loads s = inr (VDict d) ->
  (Dict.get (lit "bbs") d = None -> _parse_response text = inr (VDict d)) /\
  (forall bbs, Dict.get (lit "bbs") d = Some bbs ->
     bbs = VDict [] \/ bbs = VStr [] ->
     _parse_response text = inr (VDict d)) /\
  (forall bbs, Dict.get (lit "bbs") d = Some bbs ->
     (forall l, bbs <> VList l) -> bbs <> VDict [] -> bbs <> VStr [] ->
     _parse_response text
     = if Py.encodable text then inr placeholder
       else inl Py.surrogates_not_allowed).
Proof.
  intros Hs Hd.
  rewrite parse_response_try, (try_block_steps _ _ _ Hs Hd).
  split; [|split].
  - intros Hb; simpl; now rewrite Hb.
  - intros bbs Hb [-> | ->]; simpl; now rewrite Hb.
  - intros bbs Hb Hl Hd' Hs'; simpl; rewrite Hb.
    destruct bbs as [| | | |c|l|kv]; try reflexivity.
    + destruct c; [contradiction|reflexivity].
    + now destruct (Hl l).
    + destruct kv as [|[k v] kv]; [contradiction|reflexivity].
Qed.

(** An object without bbs, one with an empty object, one with null. *)
Lemma bbs_that_is_no_list_witness :
  _parse_response text_no_bbs
  = inr (VDict [(lit "scale", VStr (lit "1:20"))]) /\
  _parse_response text_bbs_empty_dict
  = inr (VDict [(lit "scale", VStr (lit "1:20")); (lit "bbs", VDict [])]) /\
  _parse_response text_bbs_null = inr placeholder.
Proof.
  split; [|split].
  - apply (proj1 (bbs_that_is_no_list text_no_bbs text_no_bbs
                    [(lit "scale", VStr (lit "1:20"))] eq_refl eq_refl)).
    reflexivity.
  - apply (proj1 (proj2 (bbs_that_is_no_list text_bbs_empty_dict
                           text_bbs_empty_dict
                           [(lit "scale", VStr (lit "1:20"));
                            (lit "bbs", VDict [])] eq_refl eq_refl))
             (VDict [])).
    + reflexivity.
    + now left.
  - apply (proj2 (proj2 (bbs_that_is_no_list text_bbs_null text_bbs_null
                           [(lit "scale", VStr (lit "1:20"));
                            (lit "bbs", VNone)] eq_refl eq_refl))
             VNone).
    + reflexivity.
    + discriminate.
    + discriminate.
    + discriminate.
Defined.

(** ** The prompt against the parser *)

(** X4: the response the prompt prescribes is one the parser accepts:
    the fenced pattern finds the example of the prompt, [json.loads]
    decodes it with its five keys and two boq items, and the loop puts
    15.96 where the example says 1.32. *)
Theorem prompt_example_accepted :
  exists d boq1 boq2,
    _parse_response Analyzer._create_extraction_prompt = inr (VDict d) /\
    Dict.keys d = [lit "scale"; lit "boq"; lit "bbs"; lit "notes";
                   lit "assumptions"] /\
    Dict.get (lit "boq") d = Some (VList [boq1; boq2]) /\
    Dict.get (lit "bbs") d = Some (VList [item_F1]) /\
    option_map Re.start
      (Re.search fenced_re Analyzer._create_extraction_prompt)
    = Some 970%nat.
Proof.
  set (r := _parse_response Analyzer._create_extraction_prompt).
  vm_compute in r; subst r.
  eexists _, _, _; split; [reflexivity|].
  split; [vm_compute; reflexivity|].
  split; [vm_compute; reflexivity|].
  split; [vm_compute; reflexivity|].
  vm_compute; reflexivity.
Qed.

(** ** The tables *)

Lemma getitem_inr (item v : value) (k : str) :
  Py.getitem item k = inr v ->
  exists it, item = VDict it /\ Dict.get k it = Some v.
Proof.
  destruct item as [| | | | | |it]; simpl; try discriminate.
  destruct (Dict.get k it) as [v0|] eqn:E; simpl; [|discriminate].
  intros [= <-]; eauto.
Qed.

Lemma format_2f_numeric (v : value) (text : str) :
  Builtins.format_2f v = inr text -> numeric v = true.
Proof. destruct v; simpl; try discriminate; reflexivity. Qed.

Lemma cell_2f_inr (item c : value) (k : str) :
  cell_2f item k = inr c ->
  exists it v, item = VDict it /\ Dict.get k it = Some v /\ numeric v = true.
Proof.
  unfold cell_2f.
  destruct (Py.getitem item k) as [e|v] eqn:E; simpl; [discriminate|].
  destruct (Builtins.format_2f v) as [e|text] eqn:F; simpl; [discriminate|].
  intros _; apply getitem_inr in E as (it & -> & E).
  apply format_2f_numeric in F; eauto.
Qed.

Lemma some_not_none {A} (o : option A) (a : A) : o = Some a -> o <> None.
Proof. congruence. Qed.

Lemma boq_row_fields (item : value) (row : list value) :
  boq_row item = inr row -> has_fields boq_keys boq_number_keys item.
Proof.
  unfold boq_row.
  destruct (Py.getitem item (lit "component")) as [e|c1] eqn:E1; simpl;
    [discriminate|].
  destruct (Py.getitem item (lit "type")) as [e|c2] eqn:E2; simpl;
    [discriminate|].
  destruct (cell_2f item (lit "length")) as [e|c3] eqn:E3; simpl;
    [discriminate|].
  destruct (cell_2f item (lit "breadth")) as [e|c4] eqn:E4; simpl;
    [discriminate|].
  destruct (cell_2f item (lit "depth")) as [e|c5] eqn:E5; simpl;
    [discriminate|].
  destruct (cell_2f item (lit "quantity")) as [e|c6] eqn:E6; simpl;
    [discriminate|].
  destruct (Py.getitem item (lit "unit")) as [e|c7] eqn:E7; simpl;
    [discriminate|].
  destruct (Py.getitem item (lit "confidence")) as [e|c8] eqn:E8; simpl;
    [discriminate|].
  destruct (Py.getitem item (lit "source")) as [e|c9] eqn:E9; simpl;
    [discriminate|].
  intros _.
  apply getitem_inr in E1 as (it & -> & H1).
  apply getitem_inr in E2 as (? & [= <-] & H2).
  apply cell_2f_inr in E3 as (? & v3 & [= <-] & H3 & N3).
  apply cell_2f_inr in E4 as (? & v4 & [= <-] & H4 & N4).
  apply cell_2f_inr in E5 as (? & v5 & [= <-] & H5 & N5).
  apply cell_2f_inr in E6 as (? & v6 & [= <-] & H6 & N6).
  apply getitem_inr in E7 as (? & [= <-] & H7).
  apply getitem_inr in E8 as (? & [= <-] & H8).
  apply getitem_inr in E9 as (? & [= <-] & H9).
  exists it; split; [reflexivity|]; split.
  - repeat constructor; eapply some_not_none; eassumption.
  - repeat constructor; eauto.
Qed.

(** X5: [format_boq_table] is all or nothing.  When it returns for a
    list, every item of the list is a dict with the nine keys of the
    columns and with numbers for length, breadth, depth and quantity; the
    text is the fixed message for the empty list and otherwise the table
    of one row per item.  One item short of a field, and no table is
    returned. *)
Theorem boq_table_needs_every_field
        (tabulate : list (list value) -> list str -> str)
        (l : list value) (text : str) :
  format_boq_table tabulate (VList l) = inr text ->
  Forall (has_fields boq_keys boq_number_keys) l /\
  (l = [] -> text = lit "No BOQ items found.") /\
  (l <> [] ->
   exists data, List.length data = List.length l /\
     text = tabulate data boq_headers).
Proof.
  unfold format_boq_table.
  destruct l as [|item l].
  - simpl; intros [= <-]; repeat split; auto.
    intros H; now destruct H.
  - change (negb (Builtins.truthy (VList (item :: l)))) with false.
    cbv iota; simpl Py.iter; cbn [bind ret].
    destruct (mapM boq_row (item :: l)) as [e|data] eqn:E; simpl;
      [discriminate|].
    intros [= <-].
    apply (proj1 (mapM_inr boq_row (item :: l) data)) in E.
    repeat split.
    + clear - E; induction E as [|a b l0 l' Hab _ IH]; constructor; auto.
      now apply boq_row_fields with (row := b).
    + discriminate.
    + intros _; exists data; split; [|reflexivity].
      symmetry; exact (Forall2_length E).
Qed.

(** The first boq item of the prompt. *)
Lemma boq_table_needs_every_field_witness :
  Forall (has_fields boq_keys boq_number_keys) [boq_F1].
Proof.
  apply (proj1 (boq_table_needs_every_field blank_table [boq_F1] []
                  eq_refl)).
Defined.

(** X6: a result without boq renders as the fixed message, and so does
    one without bbs; after a parse that failed on a text that can be
    printed both tables are the fixed messages.  [tabulate] is not called
    and nothing is raised. *)
Theorem empty_tables_render
        (tabulate : list (list value) -> list str -> str) (text : str) :
  (forall d,
     (Dict.get (lit "boq") d = None ->
      boq <- Builtins.get (VDict d) (lit "boq") (VList []) ;;
      format_boq_table tabulate boq = inr (lit "No BOQ items found.")) /\
     (Dict.get (lit "bbs") d = None ->
      bbs <- Builtins.get (VDict d) (lit "bbs") (VList []) ;;
      format_bbs_table tabulate bbs = inr (lit "No BBS items found."))) /\
  (forall e, try_block text = inl e -> Py.encodable text = true ->
     exists result,
       _parse_response text = inr result /\
       boq <- Builtins.get result (lit "boq") (VList []) ;;
       format_boq_table tabulate boq = inr (lit "No BOQ items found.") /\
       bbs <- Builtins.get result (lit "bbs") (VList []) ;;
       format_bbs_table tabulate bbs = inr (lit "No BBS items found.")).
Proof.
  split.
  - intros d; split; intros H; simpl; rewrite H; reflexivity.
  - intros e He Ht; exists placeholder; split; [|split; reflexivity].
    exact (parse_response_failed _ _ He Ht).
Qed.

(** The excuse of the spec. *)
Lemma empty_tables_render_witness :
  exists result,
    _parse_response text_sorry = inr result /\
    boq <- Builtins.get result (lit "boq") (VList []) ;;
    format_boq_table blank_table boq = inr (lit "No BOQ items found.") /\
    bbs <- Builtins.get result (lit "bbs") (VList []) ;;
    format_bbs_table blank_table bbs = inr (lit "No BBS items found.").
Proof.
  apply (proj2 (empty_tables_render blank_table text_sorry)
           (ValueError "No JSON found in response")).
  - vm_compute; reflexivity.
  - reflexivity.
Defined.

(** Where the formula has a value, the length can be formatted. *)
Lemma weight_inr_format (dia length : value) (w : F64.float) :
  weight dia length = inr w ->
  exists text, Builtins.format_2f length = inr text.
Proof.
  unfold weight.
  destruct (Py.pow2 dia) as [e|sq]; simpl; [discriminate|].
  destruct (Py.truediv sq 162) as [e|q]; simpl; [discriminate|].
  destruct (Py.float_mul q length) as [e|x] eqn:Em; simpl; [discriminate|].
  intros _; destruct length as [|b|z|f| | |]; try discriminate; simpl in *.
  - destruct (Py.int_to_float (Py.Z_of_bool b)); simpl in *;
      [discriminate|eauto].
  - destruct (Py.int_to_float z); simpl in *; [discriminate|eauto].
  - eauto.
Qed.

Lemma bbs_row_normalised (item : value) :
  normalised item -> rest_of_row item ->
  exists row, bbs_row item = inr row.
Proof.
  intros (it & dia & len & w & -> & Hd & Hl & _ & _ & Hw & Hk)
         (it' & length & text & [= <-] & Hm & Hb & Hc & Hn & Hlen & Hf).
  destruct (weight_inr_format _ _ _ Hw) as (tl & Htl).
  unfold bbs_row, cell_2f; simpl.
  destruct (Dict.get (lit "mark") it); [simpl|contradiction].
  destruct (Dict.get (lit "member") it); [simpl|contradiction].
  rewrite Hd; simpl.
  destruct (Dict.get (lit "count") it); [simpl|contradiction].
  rewrite Hlen; simpl; rewrite Hf; simpl.
  rewrite Hl; simpl; rewrite Htl; simpl.
  rewrite Hk; simpl.
  destruct (Dict.get (lit "notes") it); [simpl|contradiction].
  eauto.
Qed.

(** The loop over normalised items: one row per item, and a total that
    is the float sum of the weights in the order of the rows. *)
Lemma bbs_loop_normalised (l : list value) :
  Forall normalised l -> Forall rest_of_row l ->
  exists ws,
    Forall2 weight_stored l ws /\
    forall data total f0,
      total = Builtins.NInt 0 /\ f0 = S754_zero false
      \/ total = Builtins.NFloat f0 ->
      exists rows total',
        bbs_loop l data total = inr (data ++ rows, total') /\
        List.length rows = List.length l /\
        (l <> [] ->
         total' = Builtins.NFloat (fold_left Builtins.add ws f0)).
Proof.
  intros Hn Hr; induction Hn as [|item l Hitem _ IH].
  - exists []; split; [constructor|].
    intros data total f0 _; exists [], total; simpl.
    rewrite app_nil_r; repeat split; auto.
    intros H; now destruct H.
  - inversion Hr as [|? ? Hrest Hr']; subst.
    destruct (IH Hr') as (ws & Hws & Hloop).
    destruct (bbs_row_normalised item Hitem Hrest) as (row & Hrow).
    destruct Hitem as (it & dia & len & w & -> & _ & _ & _ & _ & _ & Hk).
    exists (w :: ws); split.
    + constructor; [now exists it|exact Hws].
    + intros data total f0 Ht.
      assert (Ha : Builtins.add_to total (VFloat w)
                   = inr (Builtins.NFloat (Builtins.add f0 w)))
        by (destruct Ht as [[-> ->] | ->]; reflexivity).
      destruct (Hloop (data ++ [row]) (Builtins.NFloat (Builtins.add f0 w))
                  (Builtins.add f0 w) (or_intror eq_refl))
        as (rows & total' & Hl & Hlen & Htot).
      cbn [bbs_loop]; rewrite Hrow; cbn [bind].
      simpl Py.getitem; rewrite Hk; cbn [bind ret].
      rewrite Ha; cbn [bind]; rewrite Hl, <- app_assoc.
      destruct l as [|item' l].
      * inversion Hws; subst.
        exists (row :: rows), total'; repeat split; simpl; auto.
        intros _; simpl in Hl.
        destruct rows; [|discriminate].
        injection Hl as _ <-; reflexivity.
      * exists (row :: rows), total'; repeat split; simpl; auto.
        intros _; apply Htot; discriminate.
Qed.

(** X7: on a bbs list that [_parse_response] returned, [format_bbs_table]
    cannot fail for [dia_mm], [total_length] or [weight_kg].  When every
    item also has its mark, member, count and notes and a length that can
    be formatted, it returns the table of one row per item followed by
    the TOTAL STEEL line, whose figure is the float sum, from 0.0 and in
    the order of the rows, of the weights the loop stored. *)
Theorem normalised_bbs_renders
        (tabulate : list (list value) -> list str -> str)
        (text : str) (d : Dict.dict) (l : list value) :
  _parse_response text = inr (VDict d) ->
  Dict.get (lit "bbs") d = Some (VList l) ->
  l <> [] -> Forall rest_of_row l ->
  exists data ws,
    Forall2 weight_stored l ws /\
    List.length data = List.length l /\
    format_bbs_table tabulate (VList l)
    = inr (tabulate data bbs_headers
           ++ total_line
                (Builtins.float_2f
                   (fold_left Builtins.add ws (S754_zero false)))).
Proof.
  intros Hp Hb Hne Hrest.
  assert (Hn : Forall normalised l).
  { rewrite parse_response_try in Hp.
    destruct (try_block text) as [e|res] eqn:E.
    - destruct (Py.encodable text); [|discriminate].
      injection Hp as <-; vm_compute in Hb; injection Hb as <-.
      now destruct Hne.
    - injection Hp as ->; exact (try_block_items_normalised _ _ _ E Hb). }
  destruct (bbs_loop_normalised l Hn Hrest) as (ws & Hws & Hloop).
  destruct (Hloop [] (Builtins.NInt 0) (S754_zero false)
              (or_introl (conj eq_refl eq_refl)))
    as (rows & total' & Hl & Hlen & Htot).
  exists rows, ws; repeat split; auto.
  unfold format_bbs_table.
  destruct l as [|item l]; [now destruct Hne|].
  change (negb (Builtins.truthy (VList (item :: l)))) with false.
  cbv iota; simpl Py.iter; cbn [bind ret].
  rewrite Hl, (Htot Hne); reflexivity.
Qed.

(** The sample item of the prompt, alone in a schedule. *)
Lemma normalised_bbs_renders_witness :
  exists data ws,
    Forall2 weight_stored [item_F1] ws /\
    List.length data = List.length [item_F1] /\
    format_bbs_table blank_table (VList [item_F1])
    = inr (blank_table data bbs_headers
           ++ total_line
                (Builtins.float_2f
                   (fold_left Builtins.add ws (S754_zero false)))).
Proof.
  apply (normalised_bbs_renders blank_table text_F1
           [(lit "bbs", VList [item_F1])] [item_F1]).
  - vm_compute; reflexivity.
  - reflexivity.
  - discriminate.
  - constructor; [|constructor].
    exists [(lit "mark", VStr (lit "F1-M1"));
            (lit "member", VStr (lit "Footing main"));
            (lit "dia_mm", VInt 12); (lit "count", VInt 8);
            (lit "length", VFloat (F64.of_decimal false 22 (-1)));
            (lit "total_length", VFloat f_17_6);
            (lit "weight_kg", VFloat f_15_96);
            (lit "notes", VStr (lit "12mm @ 200mm c/c"))],
      (VFloat (F64.of_decimal false 22 (-1))), (lit "2.20").
    split; [reflexivity|].
    split; [vm_compute; discriminate|].
    split; [vm_compute; discriminate|].
    split; [vm_compute; discriminate|].
    split; [vm_compute; discriminate|].
    split; [reflexivity|].
    vm_compute; reflexivity.
Defined.

Lemma bbs_row_fields (item : value) (row : list value) :
  bbs_row item = inr row -> has_fields bbs_keys bbs_number_keys item.
Proof.
  unfold bbs_row.
  destruct (Py.getitem item (lit "mark")) as [e|c1] eqn:E1; simpl;
    [discriminate|].
  destruct (Py.getitem item (lit "member")) as [e|c2] eqn:E2; simpl;
    [discriminate|].
  destruct (Py.getitem item (lit "dia_mm")) as [e|c3] eqn:E3; simpl;
    [discriminate|].
  destruct (Py.getitem item (lit "count")) as [e|c4] eqn:E4; simpl;
    [discriminate|].
  destruct (cell_2f item (lit "length")) as [e|c5] eqn:E5; simpl;
    [discriminate|].
  destruct (cell_2f item (lit "total_length")) as [e|c6] eqn:E6; simpl;
    [discriminate|].
  destruct (cell_2f item (lit "weight_kg")) as [e|c7] eqn:E7; simpl;
    [discriminate|].
  destruct (Py.getitem item (lit "notes")) as [e|c8] eqn:E8; simpl;
    [discriminate|].
  intros _.
  apply getitem_inr in E1 as (it & -> & H1).
  apply getitem_inr in E2 as (? & [= <-] & H2).
  apply getitem_inr in E3 as (? & [= <-] & H3).
  apply getitem_inr in E4 as (? & [= <-] & H4).
  apply cell_2f_inr in E5 as (? & v5 & [= <-] & H5 & N5).
  apply cell_2f_inr in E6 as (? & v6 & [= <-] & H6 & N6).
  apply cell_2f_inr in E7 as (? & v7 & [= <-] & H7 & N7).
  apply getitem_inr in E8 as (? & [= <-] & H8).
  exists it; split; [reflexivity|]; split.
  - repeat constructor; eapply some_not_none; eassumption.
  - repeat constructor; eauto.
Qed.

Lemma bbs_loop_fields (items : list value) :
  forall data total r,
    bbs_loop items data total = inr r ->
    Forall (has_fields bbs_keys bbs_number_keys) items /\
    List.length (fst r) = (List.length data + List.length items)%nat.
Proof.
  induction items as [|item rest IH]; intros data total r; cbn [bbs_loop].
  - intros [= <-]; split; [constructor|simpl; lia].
  - destruct (bbs_row item) as [e|row] eqn:Er; simpl; [discriminate|].
    destruct (Py.getitem item (lit "weight_kg")) as [e|w]; simpl;
      [discriminate|].
    destruct (Builtins.add_to total w) as [e|total']; simpl; [discriminate|].
    intros H; apply IH in H as [Hrest Hlen]; split.
    + constructor; [now apply bbs_row_fields with (row := row)|exact Hrest].
    + rewrite Hlen, length_app; simpl; lia.
Qed.

(** X10: [format_bbs_table] is all or nothing as well.  When it returns
    for a list, every item of the list is a dict with the eight keys of
    the columns and with numbers for length, total_length and weight_kg;
    the text is the fixed message for the empty list, and otherwise it
    starts with the table of one row per item and ends with the line of
    the total. *)
Theorem bbs_table_needs_every_field
        (tabulate : list (list value) -> list str -> str)
        (l : list value) (text : str) :
  format_bbs_table tabulate (VList l) = inr text ->
  Forall (has_fields bbs_keys bbs_number_keys) l /\
  (l = [] -> text = lit "No BBS items found.") /\
  (l <> [] ->
   exists data total, List.length data = List.length l /\
     text = tabulate data bbs_headers ++ total_line total).
Proof.
  unfold format_bbs_table.
  destruct l as [|item l].
  - simpl; intros [= <-]; split; [constructor|split]; auto.
    intros H; now destruct H.
  - change (negb (Builtins.truthy (VList (item :: l)))) with false.
    cbv iota; simpl Py.iter; cbn [bind ret].
    destruct (bbs_loop (item :: l) [] (Builtins.NInt 0)) as [e|[data tw]] eqn:E;
      cbn [bind ret]; [discriminate|].
    destruct (Builtins.format_2f (Builtins.value_of tw)) as [e|total];
      cbn [bind ret]; [discriminate|].
    intros [= <-].
    apply bbs_loop_fields in E as [Hf Hlen].
    split; [exact Hf|split; [discriminate|]].
    intros _; exists data, total; split; [exact Hlen|reflexivity].
Qed.

(** The sample item of the prompt, alone in a schedule. *)
Lemma bbs_table_needs_every_field_witness :
  Forall (has_fields bbs_keys bbs_number_keys) [item_F1].
Proof.
  apply (proj1 (bbs_table_needs_every_field blank_table [item_F1]
                  (total_line (lit "15.96")) eq_refl)).
Defined.

(** ** The calls to the service *)

Lemma print_processing : Py.print Analyzer.processing = inr tt.
Proof. reflexivity. Qed.

Lemma ready_returns : Analyzer.ready = inr tt.
Proof. reflexivity. Qed.

Lemma print_complete : Py.print Analyzer.complete = inr tt.
Proof. reflexivity. Qed.

(** Of what is printed before the upload, only the line with the path
    can be refused. *)
Lemma announce_spec (pdf_path : str) :
  Analyzer.announce pdf_path
  = if Py.encodable pdf_path then inr tt else inl Py.surrogates_not_allowed.
Proof.
  unfold Analyzer.announce, Py.print.
  rewrite !encodable_app.
  change (Py.encodable nl) with true.
  change (Py.encodable rule) with true.
  change (Py.encodable [128196%N]) with true.
  change (Py.encodable (lit " ANALYZING: ")) with true.
  change (Py.encodable [128228%N]) with true.
  change (Py.encodable (lit " Uploading PDF to Gemini...")) with true.
  cbn [andb bind ret raise].
  destruct (Py.encodable pdf_path); reflexivity.
Qed.

Lemma wait_for_file_unfold (state : string) (later : list string) :
  Analyzer.wait_for_file state later
  = if String.eqb state "PROCESSING" then
      match later with
      | [] => ([Analyzer.Sleep 2; Analyzer.GetFile], inr None)
      | state' :: later' =>
          let '(calls, final) := Analyzer.wait_for_file state' later' in
          (Analyzer.Sleep 2 :: Analyzer.GetFile :: calls, final)
      end
    else ([], inr (Some state)).
Proof. destruct later; reflexivity. Qed.

Lemma wait_for_file_processing (n : nat) (final : string)
      (extra : list string) (text : str) :
  String.eqb final "PROCESSING" = false ->
  Analyzer.wait_for_file
    (Analyzer.first_state (service_after n final extra text))
    (Analyzer.later_states (service_after n final extra text))
  = (polls n, inr (Some final)).
Proof.
  intros Hf.
  assert (E : Analyzer.wait_for_file final extra = ([], inr (Some final)))
    by (now rewrite wait_for_file_unfold, Hf).
  destruct n as [|n]; simpl Analyzer.first_state;
    simpl Analyzer.later_states; [exact E|].
  induction n as [|n IH].
  - simpl repeat; simpl app.
    rewrite wait_for_file_unfold, E; reflexivity.
  - change (repeat "PROCESSING"%string (S n) ++ final :: extra)
      with ("PROCESSING"%string
              :: (repeat "PROCESSING"%string n ++ final :: extra)).
    rewrite wait_for_file_unfold, IH; reflexivity.
Qed.

(** The loop makes no other call than [sleep(2)] and [get_file], and
    raises nothing. *)
Lemma wait_for_file_calls (later : list string) :
  forall state calls final,
    Analyzer.wait_for_file state later = (calls, final) ->
    (forall c, In c calls -> c = Analyzer.Sleep 2 \/ c = Analyzer.GetFile) /\
    exists o, final = inr o.
Proof.
  induction later as [|state' later IH]; intros state calls final;
    rewrite wait_for_file_unfold.
  - destruct (String.eqb state "PROCESSING"); intros [= <- <-];
      (split; [|eauto]); intros c Hc; simpl in Hc; intuition.
  - destruct (String.eqb state "PROCESSING").
    + destruct (Analyzer.wait_for_file state' later) as [calls' fin] eqn:E.
      destruct (IH _ _ _ E) as [Hc Ho].
      intros [= <- <-]; split; [|exact Ho].
      intros c [<-|[<-|H]]; auto.
    + intros [= <- <-]; split; [|eauto].
      intros c Hc; destruct Hc.
Qed.

(** The three ways [analyze_pdf] goes: the path cannot be printed and
    nothing is asked of the service; the file is uploaded and waited for
    and no result is returned; or the request is made as well, last, and
    the call ends as [_parse_response] does. *)
Lemma analyze_pdf_shape (pdf_path : str) (svc : Analyzer.service) :
  (Py.encodable pdf_path = false /\
   Analyzer.analyze_pdf pdf_path svc
   = ([], Analyzer.Raised Py.surrogates_not_allowed)) \/
  (Py.encodable pdf_path = true /\
   exists polled,
     (forall c, In c polled ->
        c = Analyzer.Sleep 2 \/ c = Analyzer.GetFile) /\
     ((exists out,
         Analyzer.analyze_pdf pdf_path svc
         = (Analyzer.UploadFile pdf_path :: polled, out) /\
         forall v, out <> Analyzer.Returned v) \/
      Analyzer.analyze_pdf pdf_path svc
      = (Analyzer.UploadFile pdf_path :: polled
           ++ [Analyzer.GenerateContent Analyzer._create_extraction_prompt
                 600],
         outcome_of (_parse_response (Analyzer.response_text svc))))).
Proof.
  unfold Analyzer.analyze_pdf; rewrite announce_spec.
  destruct (Py.encodable pdf_path); [right|left; auto].
  split; [reflexivity|].
  destruct (Analyzer.wait_for_file (Analyzer.first_state svc)
              (Analyzer.later_states svc)) as [polled final] eqn:E.
  destruct (wait_for_file_calls _ _ _ _ E) as [Hpolled (o & ->)].
  exists polled; split; [exact Hpolled|].
  destruct o as [state|].
  - destruct (String.eqb state "FAILED").
    + left; eexists; split; [reflexivity|discriminate].
    + right; rewrite ready_returns, print_complete.
      destruct (_parse_response (Analyzer.response_text svc)); reflexivity.
  - left; eexists; split; [reflexivity|discriminate].
Qed.

(** X8: when the path can be printed and the file is PROCESSING [n]
    times and then in another state, [analyze_pdf] uploads once and polls
    [n] times, two seconds apart.  If that state is FAILED it raises
    [ValueError] and never calls [generate_content]; otherwise it calls
    [generate_content] once, with the prompt and a timeout of 600, and
    ends as [_parse_response] does on the text of the response: with its
    dict when that text can be printed.  When the path cannot be printed
    it raises [UnicodeEncodeError] before it asks anything of the
    service. *)
Theorem analyze_pdf_after_processing (pdf_path : str) (n : nat)
        (final : string) (extra : list string) (text : str) :
  String.eqb final "PROCESSING" = false ->
  (Py.encodable pdf_path = false ->
   Analyzer.analyze_pdf pdf_path (service_after n final extra text)
   = ([], Analyzer.Raised Py.surrogates_not_allowed)) /\
  (Py.encodable pdf_path = true -> String.eqb final "FAILED" = true ->
   Analyzer.analyze_pdf pdf_path (service_after n final extra text)
   = (Analyzer.UploadFile pdf_path :: polls n,
      Analyzer.Raised (ValueError "❌ PDF processing failed!"))) /\
  (Py.encodable pdf_path = true -> String.eqb final "FAILED" = false ->
   Analyzer.analyze_pdf pdf_path (service_after n final extra text)
   = (Analyzer.UploadFile pdf_path :: polls n
        ++ [Analyzer.GenerateContent Analyzer._create_extraction_prompt 600],
      outcome_of (_parse_response text)) /\
   (Py.encodable text = true ->
    exists d, outcome_of (_parse_response text)
              = Analyzer.Returned (VDict d))).
Proof.
  intros Hp; unfold Analyzer.analyze_pdf; rewrite announce_spec.
  rewrite (wait_for_file_processing n final extra text Hp).
  assert (E : Analyzer.response_text (service_after n final extra text)
              = text) by (destruct n; reflexivity).
  split; [|split].
  - intros ->; reflexivity.
  - intros -> ->; reflexivity.
  - intros -> ->; rewrite ready_returns, print_complete, E; split.
    + destruct (_parse_response text); reflexivity.
    + intros Ht; destruct (parse_response_dict text Ht) as (d & ->).
      exists d; reflexivity.
Qed.

(** Two rounds of waiting, then a failure; one round, then a file that
    is ready and a response without JSON; a path with a surrogate. *)
Lemma analyze_pdf_after_processing_witness :
  Analyzer.analyze_pdf (lit "plan.pdf") (service_after 2 "FAILED" [] text_sorry)
  = (Analyzer.UploadFile (lit "plan.pdf") :: polls 2,
     Analyzer.Raised (ValueError "❌ PDF processing failed!")) /\
  Analyzer.analyze_pdf (lit "plan.pdf")
    (service_after 1 "ACTIVE" [] text_sorry)
  = (Analyzer.UploadFile (lit "plan.pdf") :: polls 1
       ++ [Analyzer.GenerateContent Analyzer._create_extraction_prompt 600],
     outcome_of (_parse_response text_sorry)) /\
  Analyzer.analyze_pdf path_surrogate (service_after 0 "ACTIVE" [] text_sorry)
  = ([], Analyzer.Raised Py.surrogates_not_allowed).
Proof.
  split; [|split].
  - apply (proj1 (proj2 (analyze_pdf_after_processing (lit "plan.pdf") 2
                           "FAILED" [] text_sorry eq_refl)));
      reflexivity.
  - apply (proj1 (proj2 (proj2 (analyze_pdf_after_processing (lit "plan.pdf")
                                  1 "ACTIVE" [] text_sorry eq_refl))
                   eq_refl eq_refl)).
  - apply (proj1 (analyze_pdf_after_processing path_surrogate 0 "ACTIVE" []
                    text_sorry eq_refl)).
    reflexivity.
Defined.

(** Where a request stands in a list of calls that ends with the only
    request it holds. *)
Lemma request_is_last (l : list Analyzer.call) (x : Analyzer.call) :
  (forall c, In c l -> forall p t, c <> Analyzer.GenerateContent p t) ->
  forall pre p t post,
    l ++ [x] = pre ++ Analyzer.GenerateContent p t :: post ->
    pre = l /\ x = Analyzer.GenerateContent p t /\ post = [].
Proof.
  induction l as [|c l IH]; intros Hl pre p t post E.
  - destruct pre as [|c' pre]; simpl in E.
    + injection E as -> <-; auto.
    + injection E as _ E; destruct pre; discriminate.
  - destruct pre as [|c' pre]; simpl in E.
    + injection E as E _; now destruct (Hl c (or_introl eq_refl) p t).
    + injection E as <- E.
      destruct (IH (fun c0 H => Hl c0 (or_intror H)) pre p t post E)
        as (-> & -> & ->); auto.
Qed.

Lemma no_request (l : list Analyzer.call) :
  (forall c, In c l -> forall p t, c <> Analyzer.GenerateContent p t) ->
  forall pre p t post, l <> pre ++ Analyzer.GenerateContent p t :: post.
Proof.
  intros Hl pre p t post E.
  apply (Hl (Analyzer.GenerateContent p t)) with (p := p) (t := t);
    [|reflexivity].
  rewrite E; apply in_or_app; right; now left.
Qed.

(** X9: whatever the key, the path, the script of the service and the
    response, a call of [generate_content] by
    [analyze_pdf_programmatically] is its last call to the service and
    comes with the prompt and the timeout 600; before it come, in this
    order, [configure] with a key that is not empty, the model, the
    upload of the path, which can be printed, and rounds of [sleep(2)]
    and [get_file]; the run then ends as [_parse_response] does on the
    text of the response.  What it returns is the dict that
    [_parse_response] returns, after such a call.  With no key in the
    argument and none in the environment it raises [ValueError] before
    any call to the service, and with a path that cannot be printed it
    uploads nothing. *)
Theorem generation_needs_key_and_file (pdf_path : str)
        (api_key : option str) (GEMINI_API_KEY : str)
        (svc : Analyzer.service)
        (calls : list Analyzer.call) (out : Analyzer.outcome) :
  Analyzer.analyze_pdf_programmatically pdf_path api_key GEMINI_API_KEY svc
  = (calls, out) ->
  (forall pre p t post,
     calls = pre ++ Analyzer.GenerateContent p t :: post ->
     p = Analyzer._create_extraction_prompt /\ t = 600 /\ post = [] /\
     key_in_use api_key GEMINI_API_KEY <> [] /\
     Py.encodable pdf_path = true /\
     (exists polled,
        pre = Analyzer.Configure (key_in_use api_key GEMINI_API_KEY)
                :: Analyzer.GenerativeModel Analyzer.GEMINI_MODEL
                :: Analyzer.UploadFile pdf_path :: polled /\
        forall c, In c polled ->
          c = Analyzer.Sleep 2 \/ c = Analyzer.GetFile) /\
     out = outcome_of (_parse_response (Analyzer.response_text svc))) /\
  (forall v, out = Analyzer.Returned v ->
     _parse_response (Analyzer.response_text svc) = inr v /\
     (exists d, v = VDict d) /\
     exists pre,
       calls = pre ++ [Analyzer.GenerateContent
                         Analyzer._create_extraction_prompt 600]) /\
  (key_in_use api_key GEMINI_API_KEY = [] ->
   calls = [] /\
   out = Analyzer.Raised (ValueError Analyzer.key_required)) /\
  (Py.encodable pdf_path = false ->
   forall c, In c calls -> c <> Analyzer.UploadFile pdf_path).
Proof.
  unfold Analyzer.analyze_pdf_programmatically.
  fold (key_in_use api_key GEMINI_API_KEY).
  destruct (key_in_use api_key GEMINI_API_KEY) as [|c k] eqn:Ek.
  { simpl; intros [= <- <-]; split; [|split; [|split]].
    - intros pre p t post E; destruct pre; discriminate.
    - discriminate.
    - auto.
    - intros _ c' []. }
  cbn [Analyzer.__init__].
  change (Py.print _) with (@inr exn unit tt).
  destruct (analyze_pdf_shape pdf_path svc)
    as [[Hpath ->]|(Hpath & polled & Hpolled & [(o & -> & Ho)| ->])];
    cbn [app]; intros [= <- <-].
  - split; [|split; [|split]].
    + intros pre p t post E; exfalso; revert E.
      apply no_request; intros c0 [<-|[<-|[]]] p0 t0; discriminate.
    + discriminate.
    + discriminate.
    + intros _ c0 [<-|[<-|[]]]; discriminate.
  - assert (Hpre : forall c0,
              In c0 (Analyzer.Configure (c :: k)
                       :: Analyzer.GenerativeModel Analyzer.GEMINI_MODEL
                       :: Analyzer.UploadFile pdf_path :: polled) ->
              forall p t, c0 <> Analyzer.GenerateContent p t).
    { intros c0 [<-|[<-|[<-|Hc0]]] p t; try discriminate.
      destruct (Hpolled c0 Hc0) as [-> | ->]; discriminate. }
    split; [|split; [|split]].
    + intros pre p t post E; exfalso; revert E.
      now apply no_request.
    + intros v Hv; now destruct (Ho v).
    + discriminate.
    + congruence.
  - assert (Hpre : forall c0,
              In c0 (Analyzer.Configure (c :: k)
                       :: Analyzer.GenerativeModel Analyzer.GEMINI_MODEL
                       :: Analyzer.UploadFile pdf_path :: polled) ->
              forall p t, c0 <> Analyzer.GenerateContent p t).
    { intros c0 [<-|[<-|[<-|Hc0]]] p t; try discriminate.
      destruct (Hpolled c0 Hc0) as [-> | ->]; discriminate. }
    split; [|split; [|split]].
    + intros pre p t post E.
      apply (request_is_last
               (Analyzer.Configure (c :: k)
                  :: Analyzer.GenerativeModel Analyzer.GEMINI_MODEL
                  :: Analyzer.UploadFile pdf_path :: polled)
               _ Hpre) in E as (-> & [= <- <-] & ->).
      split; [reflexivity|split; [reflexivity|split; [reflexivity|]]].
      split; [discriminate|split; [exact Hpath|split; [|reflexivity]]].
      exists polled; split; [reflexivity|exact Hpolled].
    + intros v Hv.
      destruct (_parse_response (Analyzer.response_text svc)) as [e|r] eqn:E;
        simpl in Hv; [discriminate|].
      injection Hv as ->; split; [reflexivity|split].
      * exact (parse_response_inr_dict _ _ E).
      * exists (Analyzer.Configure (c :: k)
                  :: Analyzer.GenerativeModel Analyzer.GEMINI_MODEL
                  :: Analyzer.UploadFile pdf_path :: polled).
        reflexivity.
    + discriminate.
    + congruence.
Qed.

(** A key from the environment and a file that is ready at once. *)
Lemma generation_needs_key_and_file_witness :
  Analyzer.analyze_pdf_programmatically (lit "plan.pdf") None (lit "k")
    (service_after 0 "ACTIVE" [] text_sorry)
  = ([Analyzer.Configure (lit "k");
      Analyzer.GenerativeModel Analyzer.GEMINI_MODEL;
      Analyzer.UploadFile (lit "plan.pdf");
      Analyzer.GenerateContent Analyzer._create_extraction_prompt 600],
     Analyzer.Returned placeholder) /\
  _parse_response text_sorry = inr placeholder.
Proof.
  assert (H : Analyzer.analyze_pdf_programmatically (lit "plan.pdf") None
                (lit "k") (service_after 0 "ACTIVE" [] text_sorry)
              = ([Analyzer.Configure (lit "k");
                  Analyzer.GenerativeModel Analyzer.GEMINI_MODEL;
                  Analyzer.UploadFile (lit "plan.pdf");
                  Analyzer.GenerateContent
                    Analyzer._create_extraction_prompt 600],
                 Analyzer.Returned placeholder))
    by (vm_compute; reflexivity).
  split; [exact H|].
  exact (proj1 (proj1 (proj2 (generation_needs_key_and_file _ _ _ _ _ _ H))
                 placeholder eq_refl)).
Defined.
